(** * The ReAct planning walkthrough of [notebooks/planning_pattern.ipynb]

    A shallow embedding of the notebook's code cells: the three arithmetic
    tools, the [available_tools] registry, the cells that ask the model,
    extract and decode a tool call, dispatch it and append the observation
    to [chat_history]; together with the tag extractor and the agent loop
    the notebook imports from the [agentic_patterns] package. *)

From Stdlib Require Import ZArith Reals Lra Lia.
From Stdlib Require Import Strings.Ascii.
From stdpp Require Import base option list strings gmap pretty.

(** ** Text: Python [str] as [string] *)

Module Text.

(** [s.startswith(p)], returning what follows the prefix. *)
Fixpoint strip_prefix (p s : string) : option string :=
  match p with
  | EmptyString => Some s
  | String a p' =>
      match s with
      | EmptyString => None
      | String b s' => if decide (a = b) then strip_prefix p' s' else None
      end
  end.

(** [hay.partition(needle)] at the leftmost occurrence: the text before
    it and the text after it, [None] when the needle does not occur. *)
Fixpoint split_at (needle hay : string) : option (string * string) :=
  match strip_prefix needle hay with
  | Some rest => Some (EmptyString, rest)
  | None =>
      match hay with
      | EmptyString => None
      | String c hay' =>
          match split_at needle hay' with
          | Some (before, after) => Some (String c before, after)
          | None => None
          end
      end
  end.

(** [needle in hay]. *)
Definition occurs (needle hay : string) : Prop :=
  ∃ u v, hay = u +:+ needle +:+ v.

(** The occurrence of [needle] that ends [pre +:+ needle] is the leftmost
    one of that text. *)
Definition leftmost (needle pre : string) : Prop :=
  ∀ u v, pre +:+ needle = u +:+ needle +:+ v →
         String.length pre ≤ String.length u.

(** The characters of a text. *)
Fixpoint has_char (c : ascii) (s : string) : bool :=
  match s with
  | EmptyString => false
  | String b s' => if decide (c = b) then true else has_char c s'
  end.

End Text.

Import Text.

(** ** The tag extractor *)

Definition open_tag (tag : string) : string := "<" +:+ tag +:+ ">".
Definition close_tag (tag : string) : string := "</" +:+ tag +:+ ">".

(** What [extract_tag_content] returns; the notebook reads its [content]
    (the ordered matches). *)
Record ExtractionResult := mkExtraction {
  tag_of : string;
  content : list string
}.

(** The scan for [<tag>...</tag>] pairs, left to right: the leftmost
    opening tag, then the first closing tag after it, then on with the
    text after that closing tag. Every round consumes at least the opening
    tag, so [fuel] bounded by the length of the text is never exhausted. *)
Fixpoint scan_tags (fuel : nat) (tag text : string) : list string :=
  match fuel with
  | O => []
  | S fuel' =>
      match split_at (open_tag tag) text with
      | None => []
      | Some (_, opened) =>
          match split_at (close_tag tag) opened with
          | None => []
          | Some (inner, rest) => inner :: scan_tags fuel' tag rest
          end
      end
  end.

(** Modelled from the spec: [agentic_patterns.utils.extraction] is not part
    of the notebook. The extractor locates all non-overlapping occurrences
    of the pair [<tag>...</tag>] and returns their inner contents in order
    of appearance; matching is literal and case-sensitive, the content may
    span lines, and an opening tag that is never closed is no match. *)
Definition extract_tag_content (text tag : string) : ExtractionResult :=
  {| tag_of := tag;
     content := scan_tags (S (String.length text)) tag text |}.

(** The pair [<tag>...</tag>] appears in [text]. *)
Definition pair_occurs (tag text : string) : Prop :=
  ∃ pre inner post,
    text = pre +:+ open_tag tag +:+ inner +:+ close_tag tag +:+ post.

(** Whether the pair appears can be computed. *)
Definition has_pair (tag text : string) : bool :=
  match split_at (open_tag tag) text with
  | Some (_, opened) => bool_decide (is_Some (split_at (close_tag tag) opened))
  | None => false
  end.

(** The contents of the non-overlapping occurrences of the pair, in order
    of appearance: the first match opens at the leftmost opening tag and
    closes at the first closing tag after it, the others are those of the
    text that follows. *)
Inductive occurrences (tag : string) : string → list string → Prop :=
  | occ_none text :
      ¬ pair_occurs tag text → occurrences tag text []
  | occ_cons pre inner rest ms :
      leftmost (open_tag tag) pre →
      leftmost (close_tag tag) inner →
      occurrences tag rest ms →
      occurrences tag
        (pre +:+ open_tag tag +:+ inner +:+ close_tag tag +:+ rest)
        (inner :: ms).

(** ** Values *)

(** What [json.loads] returns: [None], [bool], [int], [float], [str],
    [list] and [dict] with string keys. A Python [float] is idealised as
    the real number it stands for. *)
#[warning="-register-all"]
Inductive json : Type :=
  | JNull
  | JBool (b : bool)
  | JInt (n : Z)
  | JFloat (x : R)
  | JStr (s : string)
  | JList (l : list json)
  | JObj (d : gmap string json).

(** What the tools of the notebook return: [int], [float] or [str], and
    a [list] when [+] or [*] is given one. A [float] is written as the
    real number it was computed for; the double that Python holds for it
    is [double] of that real (see [External]). *)
Inductive value : Type :=
  | VInt (n : Z)
  | VFloat (x : R)
  | VStr (s : string)
  | VList (items : list json).

#[global] Instance R_eq_dec : EqDecision R := Req_dec_T.

(** The faults a cell of the notebook can stop with. *)
Inductive exception : Type :=
  | IndexError
  | JSONDecodeError
  | KeyError (key : json)
  | TypeError
  | AssertionError
  | ValueError
  | ArgumentError (param : string)
  | ToolExecutionError.

(** The decimal digits of an [int], its sign left out. *)
Definition digits (n : Z) : nat := String.length (pretty (Z.abs_N n)).

(** [sys.get_int_max_str_digits()] as Python 3.11 (the notebook's kernel
    is 3.11.3) starts with: building the decimal text of an [int] of more
    digits raises [ValueError]. *)
Definition int_max_str_digits : nat := 4300.

Inductive result (A : Type) : Type :=
  | Ok (a : A)
  | Raise (e : exception).
Arguments Ok {A} a.
Arguments Raise {A} e.

#[global] Instance result_ret : MRet result := λ A a, Ok a.
#[global] Instance result_bind : MBind result := λ A B f m,
  match m with
  | Ok a => f a
  | Raise e => Raise e
  end.

(** ** Chat messages *)

Module Msg.
Inductive role_t : Type := system | user | assistant.
Record t : Type := mk { role : role_t; content : string }.
End Msg.

(** ** What the notebook takes from outside *)

(** The model client, the JSON decoder, the rounding and the printing of
    floats are library code, and so is what Python's operators do on
    operands that are not integers; the development holds for any of them.
    The client is taken to answer every request. *)
Class External : Type := {
  (** [GROQ_CLIENT.chat.completions.create(messages=..., model=MODEL)
      .choices[0].message.content] *)
  llm : list Msg.t → string;
  (** [json.loads]; [None] when it raises [JSONDecodeError] (it is taken
      to raise nothing else) *)
  json_loads : string → option json;
  (** the double that Python holds for the [float] computed for a real
      number: two reals may round to the same double *)
  double : R → R;
  (** [str] of a [float] *)
  float_str : R → string;
  (** [a + b] on operands that are not both [int] (two [str] are
      concatenated, a [float] makes the sum a [float], ...); [None] when
      it raises *)
  add_other : json → json → option value;
  (** [a * b] on operands that are not both [int]; [None] when it raises *)
  mul_other : json → json → option value;
  (** the body of [compute_log] on an argument that is not an [int];
      [None] when it raises *)
  compute_log_other : json → option value;
  (** [str] of a [list]; [None] when it raises *)
  list_str : list json → option string;
  (** [==] on two lists *)
  list_eq : list json → list json → bool;
  (** [REACT_SYSTEM_PROMPT % tools_signature] *)
  REACT_SYSTEM_PROMPT : string
}.

(** ** The tools *)

(** [math.log] on a positive [int]: the [float] computed for the real
    natural logarithm. *)
Definition math_log (x : Z) : R := ln (IZR x).

(** The three functions on the integers their annotations declare. *)
Definition sum_two_elements (a b : Z) : Z := (a + b)%Z.

Definition multiply_two_elements (a b : Z) : Z := (a * b)%Z.

Definition compute_log (x : Z) : value :=
  if decide (x ≤ 0)%Z
  then VStr "Logarithm is undefined for values less than or equal to 0."
  else VFloat (math_log x).

Inductive schema_type : Type := TInteger | TNumber | TString | TBoolean.

Record ToolSpec : Type := mkSpec {
  name : string;
  description : string;
  parameters : list (string * schema_type)
}.

(** A wrapped callable: it is called with keyword arguments and returns a
    value, or raises ([None]). *)
Record Tool : Type := mkTool {
  spec : ToolSpec;
  fn : gmap string json → option value
}.

(** Binding keyword arguments to the parameters of [def f(p1, ...)]: the
    call raises unless exactly the parameters are given. The annotations
    are not checked: the body runs on whatever was decoded. *)
Definition bind (params : list string) (kw : gmap string json)
  : option (list json) :=
  if decide (dom kw = list_to_set params) then mapM (λ p, kw !! p) params
  else None.

Section Tools.
Context {E : External}.

(** [a + b] and [a * b], as the bodies of the first two tools have them:
    integer arithmetic on two [int]s, which never overflows; on other
    operands what Python does is left to [External]. *)
Definition py_add (a b : json) : option value :=
  match a, b with
  | JInt m, JInt n => Some (VInt (sum_two_elements m n))
  | _, _ => add_other a b
  end.

Definition py_mul (a b : json) : option value :=
  match a, b with
  | JInt m, JInt n => Some (VInt (multiply_two_elements m n))
  | _, _ => mul_other a b
  end.

(** The body of [compute_log]: on an [int] the comparison with 0 and the
    logarithm. *)
Definition compute_log_body (x : json) : option value :=
  match x with
  | JInt n => Some (compute_log n)
  | _ => compute_log_other x
  end.

Definition sum_two_elements_tool : Tool :=
  {| spec := {| name := "sum_two_elements";
                description := "Computes the sum of two integers.";
                parameters := [("a", TInteger); ("b", TInteger)] |};
     fn kw := match bind ["a"; "b"] kw with
              | Some [a; b] => py_add a b
              | _ => None
              end |}.

Definition multiply_two_elements_tool : Tool :=
  {| spec := {| name := "multiply_two_elements";
                description := "Multiplies two integers.";
                parameters := [("a", TInteger); ("b", TInteger)] |};
     fn kw := match bind ["a"; "b"] kw with
              | Some [a; b] => py_mul a b
              | _ => None
              end |}.

Definition compute_log_tool : Tool :=
  {| spec := {| name := "compute_log";
                description :=
                  "Computes the logarithm of an integer `x` with an optional base.";
                parameters := [("x", TInteger)] |};
     fn kw := match bind ["x"] kw with
              | Some [x] => compute_log_body x
              | _ => None
              end |}.

Definition available_tools : gmap string Tool :=
  <["compute_log" := compute_log_tool]>
    (<["multiply_two_elements" := multiply_two_elements_tool]>
       (<["sum_two_elements" := sum_two_elements_tool]> ∅)).

End Tools.

(** Modelled from the spec: [Tool.run] of [agentic_patterns.tool_pattern]
    is not part of the notebook. Invoking a tool validates that every
    required parameter is present ([ArgumentError] otherwise), then calls
    the wrapped callable with those arguments; a callable that raises is
    reported as [ToolExecutionError]. *)
Definition run (t : Tool) (kwargs : gmap string json) : result value :=
  match List.find (λ p, bool_decide (kwargs !! p = None))
                  (fst <$> parameters (spec t)) with
  | Some p => Raise (ArgumentError p)
  | None =>
      match fn t kwargs with
      | Some v => Ok v
      | None => Raise ToolExecutionError
      end
  end.

(** ** The cells of the walkthrough *)

(** The globals the cells share: [chat_history], which they mutate in
    place, and a count of the requests sent to the model. *)
Record state : Type := mkState {
  chat_history : list Msg.t;
  requests : nat
}.

(** A cell runs on the state and returns or raises; what it did to the
    state before raising stays done. *)
Definition cell (A : Type) : Type := state → result A * state.

#[global] Instance cell_ret : MRet cell := λ A a st, (Ok a, st).
#[global] Instance cell_bind : MBind cell := λ A B f m st,
  match m st with
  | (Ok a, st') => f a st'
  | (Raise e, st') => (Raise e, st')
  end.

Definition lift {A} (r : result A) : cell A := λ st, (r, st).

(** [chat_history.append(m)] *)
Definition append (m : Msg.t) : cell unit := λ st,
  (Ok (), {| chat_history := chat_history st ++ [m];
             requests := requests st |}).

(** [seq[0]] *)
Definition item0 {A} (seq : list A) : result A :=
  match seq !! 0 with
  | Some a => Ok a
  | None => Raise IndexError
  end.

(** [obj[key]] for a string key: a [dict] is looked up, nothing else in
    JSON data can be subscripted by a string. *)
Definition subscript (obj : json) (key : string) : result json :=
  match obj with
  | JObj d =>
      match d !! key with
      | Some v => Ok v
      | None => Raise (KeyError (JStr key))
      end
  | _ => Raise TypeError
  end.

(** [tools[key]]: the registry has string keys; lists and dicts are not
    hashable. *)
Definition resolve (tools : gmap string Tool) (key : json) : result Tool :=
  match key with
  | JStr n =>
      match tools !! n with
      | Some t => Ok t
      | None => Raise (KeyError key)
      end
  | JList _ | JObj _ => Raise TypeError
  | _ => Raise (KeyError key)
  end.

(** [obj] unpacked into keyword arguments. *)
Definition unpack (obj : json) : result (gmap string json) :=
  match obj with
  | JObj d => Ok d
  | _ => Raise TypeError
  end.

(** A cell that leaves the messages it finds in place. *)
Definition appends {A} (c : cell A) : Prop :=
  ∀ st, chat_history st `prefix_of` chat_history (c st).2.

Section Walkthrough.
Context {E : External}.

(** [a == b] on these values: numbers compare by value, an [int] with
    the double of a [float], two floats by their doubles; a string equals
    only the same string. *)
Definition py_eq (a b : value) : bool :=
  match a, b with
  | VInt m, VInt n => bool_decide (m = n)
  | VInt m, VFloat y => bool_decide (IZR m = double y)
  | VFloat x, VInt n => bool_decide (double x = IZR n)
  | VFloat x, VFloat y => bool_decide (double x = double y)
  | VStr s, VStr t => bool_decide (s = t)
  | VList l, VList k => list_eq l k
  | _, _ => false
  end.

(** The text of a value, as [str] builds it when it does (see
    [format_value]). *)
Definition py_str (v : value) : string :=
  match v with
  | VInt n => pretty n
  | VFloat x => float_str x
  | VStr s => s
  | VList l => default "" (list_str l)
  end.

(** [f"{v}"]: the text of [v]; for an [int] of more than
    [int_max_str_digits] digits the conversion raises [ValueError]. *)
Definition format_value (v : value) : result string :=
  match v with
  | VInt n =>
      if decide (int_max_str_digits < digits n) then Raise ValueError
      else Ok (py_str v)
  | VList l =>
      match list_str l with
      | Some _ => Ok (py_str v)
      | None => Raise ValueError
      end
  | _ => Ok (py_str v)
  end.

(** The message of an observation whose text could be built. *)
Definition observation (tool_result : value) : Msg.t :=
  Msg.mk Msg.user ("<observation>" +:+ py_str tool_result +:+ "</observation>").

Definition loads (s : string) : result json :=
  match json_loads s with
  | Some v => Ok v
  | None => Raise JSONDecodeError
  end.

(** [output = GROQ_CLIENT...create(messages=chat_history, ...)] *)
Definition ask : cell string := λ st,
  (Ok (llm (chat_history st)),
   {| chat_history := chat_history st; requests := S (requests st) |}).

(** Steps 1, 3 and 5: ask the model, append its reply. *)
Definition think : cell string :=
  output ← ask;
  _ ← append (Msg.mk Msg.assistant output);
  mret output.

(** The tool named by [tool_call], looked up in [available_tools], is
    run on the arguments of [tool_call] as keyword arguments. *)
Definition dispatch (tool_call : json) : result value :=
  key ← subscript tool_call "name";
  tool ← resolve available_tools key;
  arguments ← subscript tool_call "arguments";
  kwargs ← unpack arguments;
  run tool kwargs.

(** The three lines of steps 4 and 6 (step 2 has them cell by cell). *)
Definition call_tool (output : string) : result value :=
  let tool_call := extract_tag_content output "tool_call" in
  first ← item0 (content tool_call);
  tool_call ← loads first;
  dispatch tool_call.

(** The cell [assert tool_result == expected] that the notebook has
    between the call and the observation; [None] is the step without it. *)
Definition check (tool_result : value) (expected : option value)
  : result unit :=
  match expected with
  | Some w => if py_eq tool_result w then Ok () else Raise AssertionError
  | None => Ok ()
  end.

(** Steps 2, 4 and 6: run the tool call of [output], check the result,
    format it and append it as an observation. *)
Definition act (output : string) (expected : option value) : cell value :=
  tool_result ← lift (call_tool output);
  _ ← lift (check tool_result expected);
  text ← lift (format_value tool_result);
  _ ← append (Msg.mk Msg.user ("<observation>" +:+ text +:+ "</observation>"));
  mret tool_result.

Definition round (expected : option value) : cell value :=
  output ← think;
  act output expected.

(** The cell [chat_history = [...]] of step 1. *)
Definition initial (USER_QUESTION : string) : state :=
  {| chat_history :=
       [Msg.mk Msg.system REACT_SYSTEM_PROMPT;
        Msg.mk Msg.user ("<question>" +:+ USER_QUESTION +:+ "</question>")];
     requests := 0 |}.

(** Steps 1 to 7 with their assertions; the three tool results and the
    last output. *)
Definition walkthrough : cell (value * value * value * string) :=
  r1 ← round (Some (VInt (1234 + 5678)));
  r2 ← round (Some (VInt ((1234 + 5678) * 5)));
  r3 ← round (Some (VFloat (math_log ((1234 + 5678) * 5))));
  output ← ask;
  mret (r1, r2, r3, output).

End Walkthrough.

(** ** The agent loop *)

Module ToolCall.
(** The wire format of a tool call: exactly the keys [name], [arguments]
    and [id]. *)
Record t : Type := mk {
  name : string;
  arguments : gmap string json;
  id : Z
}.
End ToolCall.

(** How a run ends badly: the iteration budget is used up, or the reply
    has no usable tag; the raw reply is reported. *)
Inductive fatal : Type :=
  | IterationBudgetExceeded
  | MalformedToolCall (raw : string).

Inductive outcome : Type :=
  | Done (answer : string)
  | Fatal (reason : fatal).

(** What to do with a reply that stalls: abort, or retry once with a
    corrective system note. *)
Inductive stall_policy : Type := Abort | RetryOnce.

Definition retries_of (p : stall_policy) : nat :=
  match p with
  | Abort => 0
  | RetryOnce => 1
  end.

Record config : Type := mkConfig {
  max_iterations : nat;
  on_stall : stall_policy
}.

(** Modelled from the spec: the maximum number of iterations is
    configurable, with 10 as its default; of the two stall policies the
    default is the abort. *)
Definition default_config : config :=
  {| max_iterations := 10; on_stall := Abort |}.

Definition corrective_note : Msg.t :=
  Msg.mk Msg.system
    "Reply with a <tool_call></tool_call> or a <response></response> tag.".

Section AgentLoop.
Context {E : External}.

Definition parse_tool_call (s : string) : option ToolCall.t :=
  match json_loads s with
  | Some (JObj d) =>
      if decide (dom d = ({["name"; "arguments"; "id"]} : gset string)) then
        match d !! "name", d !! "arguments", d !! "id" with
        | Some (JStr n), Some (JObj a), Some (JInt i) =>
            Some (ToolCall.mk n a i)
        | _, _, _ => None
        end
      else None
  | _ => None
  end.

(** Steps 5 to 7: an unknown tool, a missing argument and a tool that
    raises are each fed back as an observation. *)
Definition observe (tools : gmap string Tool) (call : ToolCall.t)
  : Msg.t :=
  match tools !! ToolCall.name call with
  | None =>
      Msg.mk Msg.user
        ("<observation>Unknown tool: " +:+ ToolCall.name call +:+ "</observation>")
  | Some tool =>
      match run tool (ToolCall.arguments call) with
      | Ok v => observation v
      | Raise (ArgumentError p) =>
          Msg.mk Msg.user
            ("<observation>Missing argument: " +:+ p +:+ "</observation>")
      | Raise _ =>
          Msg.mk Msg.user "<observation>The tool raised an error.</observation>"
      end
  end.

(** Modelled from the spec: [ReactAgent] of
    [agentic_patterns.planning_pattern] is not part of the notebook. Each
    iteration sends the conversation and appends the reply; a [response]
    tag ends the run; otherwise the first [tool_call] match is parsed, run
    and observed; a reply with neither tag, or with a malformed tool
    call, stalls: one corrective retry if the policy grants it, else the
    run aborts with the raw reply. [budget] is what is left of the
    maximum number of iterations, [retries] what is left of the retries. *)
Fixpoint agent_loop (tools : gmap string Tool) (budget retries : nat)
    (st : state) : outcome * state :=
  match budget with
  | O => (Fatal IterationBudgetExceeded, st)
  | S budget' =>
      let reply := llm (chat_history st) in
      let st1 := {| chat_history :=
                      chat_history st ++ [Msg.mk Msg.assistant reply];
                    requests := S (requests st) |} in
      match content (extract_tag_content reply "response") with
      | answer :: _ => (Done answer, st1)
      | [] =>
          match head (content (extract_tag_content reply "tool_call"))
                ≫= parse_tool_call with
          | Some call =>
              agent_loop tools budget' retries
                {| chat_history := chat_history st1 ++ [observe tools call];
                   requests := requests st1 |}
          | None =>
              match retries with
              | O => (Fatal (MalformedToolCall reply), st1)
              | S retries' =>
                  agent_loop tools budget' retries'
                    {| chat_history := chat_history st1 ++ [corrective_note];
                       requests := requests st1 |}
              end
          end
      end
  end.

Definition react_agent_run (cfg : config) (tools : gmap string Tool)
    (user_msg : string) : outcome * state :=
  agent_loop tools (max_iterations cfg) (retries_of (on_stall cfg))
    (initial user_msg).

(** The last cells of the notebook: [agent = ReactAgent(tools=[...])] on
    the three tools, then [agent.run(user_msg=...)]; no iteration count is
    given, so the run is on the default configuration. *)
Definition agent_run (user_msg : string) : outcome * state :=
  react_agent_run default_config available_tools user_msg.

(** A reply that goes on with the loop: no [response] tag, and a first
    [tool_call] match that parses. *)
Definition calls_tool (reply : string) : Prop :=
  content (extract_tag_content reply "response") = [] ∧
  is_Some (head (content (extract_tag_content reply "tool_call"))
           ≫= parse_tool_call).

(** A reply with neither tag. *)
Definition no_tag (reply : string) : Prop :=
  content (extract_tag_content reply "response") = [] ∧
  content (extract_tag_content reply "tool_call") = [].

(** A reply that stalls the loop: no [response] tag, and no [tool_call]
    tag or a first match that does not parse. *)
Definition stalls (reply : string) : Prop :=
  content (extract_tag_content reply "response") = [] ∧
  head (content (extract_tag_content reply "tool_call")) ≫= parse_tool_call
  = None.

End AgentLoop.

(** ** Rational bounds on the exponential *)

Module Bounds.

(** Fixed point numbers: [m] stands for [m / scale]. *)
Definition scale : Z := (10 ^ 40)%Z.

(** The square, rounded down. *)
Definition sq_down (m : Z) : Z := (m * m / scale)%Z.

(** [(1 + num / (den * 2 ^ k)) ^ (2 ^ k)], rounded down at every step. *)
Definition exp_lower (k : nat) (num den : Z) : Z :=
  Nat.iter k sq_down (scale + scale * num / (den * 2 ^ Z.of_nat k))%Z.

End Bounds.

(** Two reals agree to the four decimals written. *)
Definition agree4 (x y : R) : Prop := (Rabs (x - y) <= 1 / 10000)%R.

(** ** Scripted sessions *)

(** The double quote, and a quoted word of a JSON text. *)
Definition dq : string := String "034"%char "".
Definition quoted (s : string) : string := dq +:+ s +:+ dq.

(** The text of a tool call on the wire, and the object it decodes to. *)
Definition call_text (name arguments id : string) : string :=
  "{" +:+ quoted "name" +:+ ": " +:+ quoted name +:+ ", "
      +:+ quoted "arguments" +:+ ": " +:+ arguments +:+ ", "
      +:+ quoted "id" +:+ ": " +:+ id +:+ "}".

Definition call_json (name : string) (arguments : gmap string json) (id : Z)
  : json :=
  JObj (<["name" := JStr name]>
          (<["arguments" := JObj arguments]> (<["id" := JInt id]> ∅))).

Definition tool_call_reply (thought call : string) : string :=
  "<thought>" +:+ thought +:+ "</thought>
<tool_call>" +:+ call +:+ "</tool_call>".

(** A model that answers from a script, one reply per request, and a
    decoder that knows the texts of the script; the one float of these
    sessions, [math.log(34560)], is taken as its own double and prints as
    Python prints it. The scripts call the tools on integers only, so
    what the operators do on other operands is left empty. *)
Definition scripted (replies : list string) (decoded : list (string * json))
  : External :=
  {| llm history := default "" (replies !! (length history / 2 - 1));
     json_loads s := snd <$> List.find (λ e, bool_decide (e.1 = s)) decoded;
     double x := x;
     float_str _ := "10.450452222917992";
     add_other _ _ := None;
     mul_other _ _ := None;
     compute_log_other _ := None;
     list_str _ := None;
     list_eq _ _ := false;
     REACT_SYSTEM_PROMPT := "You are a function calling AI model." |}.

(** Scenario A: the session of the notebook. *)
Definition USER_QUESTION : string :=
  "I want to calculate the sum of 1234 and 5678 and multiply the result by 5. Then, I want to take the logarithm of this result".

Definition sum_call : string :=
  call_text "sum_two_elements"
    ("{" +:+ quoted "a" +:+ ": 1234, " +:+ quoted "b" +:+ ": 5678}") "0".
Definition multiply_call : string :=
  call_text "multiply_two_elements"
    ("{" +:+ quoted "a" +:+ ": 6912, " +:+ quoted "b" +:+ ": 5}") "1".
Definition log_call : string :=
  call_text "compute_log" ("{" +:+ quoted "x" +:+ ": 34560}") "2".

Definition scenario_A : External :=
  scripted
    [tool_call_reply "I need to calculate the sum of 1234 and 5678" sum_call;
     tool_call_reply "I need to multiply the result by 5" multiply_call;
     tool_call_reply "I need to take the logarithm of the result" log_call;
     "<response>The result is 10.450452222917992</response>"]
    [(sum_call,
      call_json "sum_two_elements" (<["a" := JInt 1234]> {["b" := JInt 5678]}) 0);
     (multiply_call,
      call_json "multiply_two_elements" (<["a" := JInt 6912]> {["b" := JInt 5]}) 1);
     (log_call, call_json "compute_log" {["x" := JInt 34560]} 2)].

(** Scenario B: the logarithm of zero. *)
Definition log0_call : string :=
  call_text "compute_log" ("{" +:+ quoted "x" +:+ ": 0}") "0".

Definition scenario_B : External :=
  scripted
    [tool_call_reply "I need the logarithm of 0" log0_call]
    [(log0_call, call_json "compute_log" {["x" := JInt 0]} 0)].

(** Scenario C: a reply with no tag at all, and one whose tool call is not
    JSON. *)
Definition scenario_C : External :=
  scripted
    ["The sum of 1234 and 5678 is 6912.";
     "<tool_call>sum_two_elements(1234, 5678)</tool_call>"]
    [].

(** Scenario D: a tool that is not registered. *)
Definition weather_call : string :=
  call_text "get_current_weather"
    ("{" +:+ quoted "location" +:+ ": " +:+ quoted "Madrid" +:+ "}") "0".

Definition scenario_D : External :=
  scripted
    [tool_call_reply "I need to get the current weather in Madrid" weather_call]
    [(weather_call,
      call_json "get_current_weather" {["location" := JStr "Madrid"]} 0)].

(** The same call of [sum_two_elements] under another [id]. *)
Definition sum_call_7 : string :=
  call_text "sum_two_elements"
    ("{" +:+ quoted "a" +:+ ": 1234, " +:+ quoted "b" +:+ ": 5678}") "7".

Definition two_ids : External :=
  scripted []
    [(sum_call,
      call_json "sum_two_elements" (<["a" := JInt 1234]> {["b" := JInt 5678]}) 0);
     (sum_call_7,
      call_json "sum_two_elements" (<["a" := JInt 1234]> {["b" := JInt 5678]}) 7)].

(** Scenario C for the agent: a model that never writes a tag. *)
Definition silent : External := scripted [] [].

(** A model that skips the sum: its first reply is the multiplication of
    Scenario A. *)
Definition multiply_first : External :=
  scripted
    [tool_call_reply "I need to multiply the result by 5" multiply_call]
    [(multiply_call,
      call_json "multiply_two_elements" (<["a" := JInt 6912]> {["b" := JInt 5]}) 1)].

(** A model that never answers: whatever the conversation, it calls
    [sum_two_elements] again. *)
Definition looping : External :=
  {| llm _ := tool_call_reply "I need to calculate the sum of 1234 and 5678"
                sum_call;
     json_loads := json_loads (External := scenario_A);
     double x := x;
     float_str _ := "10.450452222917992";
     add_other _ _ := None;
     mul_other _ _ := None;
     compute_log_other _ := None;
     list_str _ := None;
     list_eq _ _ := false;
     REACT_SYSTEM_PROMPT := "You are a function calling AI model." |}.


(** ** The system prompt *)

(** The text of [REACT_SYSTEM_PROMPT] as the notebook first defines it,
    with its conversion [%s] where the signatures of the tools go. *)
Definition REACT_SYSTEM_PROMPT_template : string :=
  "
You are a function calling AI model. You operate by running a loop with the following steps: Thought, Action, Observation.
You are provided with function signatures within <tools></tools> XML tags.
You may call one or more functions to assist with the user query. Don' make assumptions about what values to plug
into functions. Pay special attention to the properties 'types'. You should use those types as in a Python dict.

For each function call return a json object with function name and arguments within <tool_call></tool_call> XML tags as follows:

<tool_call>
{" +:+ dq +:+
  "name" +:+ dq +:+
  ": <function-name>," +:+ dq +:+
  "arguments" +:+ dq +:+
  ": <args-dict>, " +:+ dq +:+
  "id" +:+ dq +:+
  ": <monotonically-increasing-id>}
</tool_call>

Here are the available tools / actions:

<tools> 
%s
</tools>

Example session:

<question>What's the current temperature in Madrid?</question>
<thought>I need to get the current weather in Madrid</thought>
<tool_call>{" +:+ dq +:+
  "name" +:+ dq +:+
  ": " +:+ dq +:+
  "get_current_weather" +:+ dq +:+
  "," +:+ dq +:+
  "arguments" +:+ dq +:+
  ": {" +:+ dq +:+
  "location" +:+ dq +:+
  ": " +:+ dq +:+
  "Madrid" +:+ dq +:+
  ", " +:+ dq +:+
  "unit" +:+ dq +:+
  ": " +:+ dq +:+
  "celsius" +:+ dq +:+
  "}, " +:+ dq +:+
  "id" +:+ dq +:+
  ": 0}</tool_call>

You will be called again with this:

<observation>{0: {" +:+ dq +:+
  "temperature" +:+ dq +:+
  ": 25, " +:+ dq +:+
  "unit" +:+ dq +:+
  ": " +:+ dq +:+
  "celsius" +:+ dq +:+
  "}}</observation>

You then output:

<response>The current temperature in Madrid is 25 degrees Celsius</response>

Additional constraints:

- If the user asks you something unrelated to any of the tools above, answer freely enclosing your answer with <response></response> tags.
".

(** [tools_signature]: the signatures of the three tools ([fn_signature],
    which the decorator computes), joined by a comma and a newline. *)
Definition tools_signature (sum_sig multiply_sig log_sig : string) : string :=
  sum_sig +:+ ",
" +:+ multiply_sig +:+ ",
" +:+ log_sig.

(** How [template % arg] ends for a [str] argument: the formatted text, or
    [TypeError] (not enough arguments for the format string, or not all
    arguments converted). Conversions other than [%s] and [%%] are not
    modelled. *)
Inductive formatted : Type :=
  | Formatted (text : string)
  | NotEnoughArguments
  | NotAllArgumentsConverted
  | OtherConversion.

Definition prepend (s : string) (f : formatted) : formatted :=
  match f with
  | Formatted text => Formatted (s +:+ text)
  | failure => failure
  end.

(** The scan of the template, left to right; [used] tells whether the one
    argument has been consumed. *)
Fixpoint percent_format_from (used : bool) (template arg : string)
  : formatted :=
  match template with
  | EmptyString => if used then Formatted "" else NotAllArgumentsConverted
  | String c rest =>
      if decide (c = "%"%char) then
        match rest with
        | EmptyString => OtherConversion
        | String k rest' =>
            if decide (k = "s"%char) then
              if used then NotEnoughArguments
              else prepend arg (percent_format_from true rest' arg)
            else if decide (k = "%"%char) then
              prepend "%" (percent_format_from used rest' arg)
            else OtherConversion
        end
      else prepend (String c "") (percent_format_from used rest arg)
  end.

(** [template % arg] *)
Definition percent_format (template arg : string) : formatted :=
  percent_format_from false template arg.

(** ** The roles of a conversation *)

#[global] Instance role_eq_dec : EqDecision Msg.role_t.
Proof. solve_decision. Defined.

Definition other_role (r : Msg.role_t) : Msg.role_t :=
  match r with
  | Msg.user => Msg.assistant
  | _ => Msg.user
  end.

(** The roles alternate, starting with [next]. *)
Fixpoint alternates (next : Msg.role_t) (roles : list Msg.role_t) : bool :=
  match roles with
  | [] => true
  | r :: roles' => bool_decide (r = next) && alternates (other_role next) roles'
  end.

(** A system message, then user and assistant messages in turn. *)
Definition well_formed (history : list Msg.t) : bool :=
  match history with
  | m :: history' =>
      bool_decide (Msg.role m = Msg.system)
      && alternates Msg.user (Msg.role <$> history')
  | [] => false
  end.

(** ** More scripted sessions *)

(** The call of [sum_two_elements] of Scenario A without an [id]. *)
Definition sum_call_no_id : string :=
  "{" +:+ quoted "name" +:+ ": " +:+ quoted "sum_two_elements" +:+ ", "
      +:+ quoted "arguments" +:+ ": {" +:+ quoted "a" +:+ ": 1234, "
      +:+ quoted "b" +:+ ": 5678}}".

Definition no_id : External :=
  scripted []
    [(sum_call,
      call_json "sum_two_elements" (<["a" := JInt 1234]> {["b" := JInt 5678]}) 0);
     (sum_call_no_id,
      JObj (<["name" := JStr "sum_two_elements"]>
              {["arguments" :=
                  JObj (<["a" := JInt 1234]> {["b" := JInt 5678]})]}))].

(** * Proofs *)

(** ** Text *)

Module TextFacts.

Lemma string_app_nil_l (s : string) : "" +:+ s = s.
Proof. reflexivity. Qed.

Lemma string_app_cons (c : ascii) (s t : string) :
  String c s +:+ t = String c (s +:+ t).
Proof. reflexivity. Qed.

Ltac norm := rewrite ?string_app_cons, ?string_app_nil_l in *.

Lemma string_app_nil_r (s : string) : s +:+ "" = s.
Proof. induction s as [|c s IH]; [done|]. norm. by rewrite IH. Qed.

Lemma string_app_assoc (a b c : string) : (a +:+ b) +:+ c = a +:+ b +:+ c.
Proof. induction a as [|x a IH]; [done|]. norm. by rewrite IH. Qed.

Lemma string_length_app (a b : string) :
  String.length (a +:+ b) = String.length a + String.length b.
Proof. induction a as [|x a IH]; [done|]. norm. cbn. by rewrite IH. Qed.

Lemma string_app_inv_head (a b c : string) : a +:+ b = a +:+ c → b = c.
Proof. induction a as [|x a IH]; [done|]. norm. intros [= H]. auto. Qed.

(** Two ways of cutting one text differ by a middle part. *)
Lemma string_app_eq_app (a b c d : string) :
  a +:+ b = c +:+ d →
  ∃ k, (c = a +:+ k ∧ b = k +:+ d) ∨ (a = c +:+ k ∧ d = k +:+ b).
Proof.
  revert c. induction a as [|x a IH]; intros c H.
  - exists c. left. done.
  - destruct c as [|y c].
    + exists (String x a). right. done.
    + norm. injection H as -> H.
      destruct (IH c H) as [k [[-> ->]|[-> ->]]]; exists k; [left|right]; done.
Qed.

Lemma string_app_eq_app_le (a b c d : string) :
  a +:+ b = c +:+ d → String.length a ≤ String.length c →
  ∃ k, c = a +:+ k ∧ b = k +:+ d.
Proof.
  intros H Hle. destruct (string_app_eq_app _ _ _ _ H) as [k [[-> ->]|[-> ->]]].
  - by exists k.
  - rewrite string_length_app in Hle. destruct k; [|cbn in Hle; lia].
    exists "". by rewrite !string_app_nil_r.
Qed.

Lemma string_app_eq_len (a b c d : string) :
  a +:+ b = c +:+ d → String.length a = String.length c → a = c ∧ b = d.
Proof.
  intros H Hlen. destruct (string_app_eq_app_le _ _ _ _ H) as [k [-> ->]]; [lia|].
  rewrite string_length_app in Hlen. destruct k; [|cbn in Hlen; lia].
  by rewrite string_app_nil_r.
Qed.

Lemma strip_prefix_Some (p s r : string) :
  strip_prefix p s = Some r ↔ s = p +:+ r.
Proof.
  revert s. induction p as [|a p IH]; intros s; cbn.
  - split; [by intros [= ->]|by intros ->].
  - destruct s as [|b s]; [done|]. norm. case_decide as Hab.
    + subst b. rewrite IH. split; [by intros ->|by intros [= ->]].
    + split; [done|]. intros [= -> _]. done.
Qed.

Lemma strip_prefix_app (p r : string) : strip_prefix p (p +:+ r) = Some r.
Proof. by apply strip_prefix_Some. Qed.

(** [split_at] cuts at an occurrence, and at the leftmost one. *)
Lemma split_at_Some (n h b a : string) :
  split_at n h = Some (b, a) →
  h = b +:+ n +:+ a ∧
  ∀ u v, h = u +:+ n +:+ v → String.length b ≤ String.length u.
Proof.
  revert b. induction h as [|c h IH]; intros b; cbn.
  - destruct (strip_prefix n "") as [r|] eqn:Hp; [|done].
    intros [= <- <-]. apply strip_prefix_Some in Hp. split; [done|].
    intros; cbn; lia.
  - destruct (strip_prefix n (String c h)) as [r|] eqn:Hp.
    + intros [= <- <-]. apply strip_prefix_Some in Hp. split; [done|].
      intros; cbn; lia.
    + destruct (split_at n h) as [[b' a']|] eqn:Hs; [|done].
      intros [= <- <-]. destruct (IH _ eq_refl) as [-> Hleft].
      split; [done|]. intros [|x u] v Huv.
      * norm. rewrite Huv in Hp. by rewrite strip_prefix_app in Hp.
      * norm. injection Huv as -> Huv. cbn.
        specialize (Hleft _ _ Huv). lia.
Qed.

Lemma split_at_None (n h : string) : split_at n h = None → ¬ occurs n h.
Proof.
  induction h as [|c h IH]; cbn.
  - destruct (strip_prefix n "") eqn:Hp; [done|]. intros _ (u & v & H).
    destruct u; [|done]. norm. rewrite H in Hp.
    by rewrite strip_prefix_app in Hp.
  - destruct (strip_prefix n (String c h)) eqn:Hp; [done|].
    destruct (split_at n h) as [[??]|] eqn:Hs; [done|].
    intros _ (u & v & H). destruct u as [|x u].
    + norm. rewrite H in Hp. by rewrite strip_prefix_app in Hp.
    + norm. injection H as -> H. apply IH; [done|]. by exists u, v.
Qed.

Lemma split_at_occurs (n h : string) :
  occurs n h → is_Some (split_at n h).
Proof.
  intros Hocc. destruct (split_at n h) eqn:Hs; [done|].
  by destruct (split_at_None _ _ Hs).
Qed.

(** The leftmost occurrence in [pre +:+ n] stays the leftmost one whatever
    follows. *)
Lemma leftmost_in (n pre a u v : string) :
  leftmost n pre → pre +:+ n +:+ a = u +:+ n +:+ v →
  String.length pre ≤ String.length u.
Proof.
  intros Hl H. rewrite <- !string_app_assoc in H.
  destruct (string_app_eq_app _ _ _ _ H) as [k [[Hk _]|[Hk _]]].
  - apply (f_equal String.length) in Hk. rewrite !string_length_app in Hk. lia.
  - rewrite string_app_assoc in Hk. by apply Hl in Hk.
Qed.

Lemma split_at_leftmost (n pre a : string) :
  leftmost n pre → split_at n (pre +:+ n +:+ a) = Some (pre, a).
Proof.
  intros Hl.
  destruct (split_at n (pre +:+ n +:+ a)) as [[b a']|] eqn:Hs.
  - apply split_at_Some in Hs as [Heq Hmin].
    specialize (Hmin pre a eq_refl).
    pose proof (leftmost_in _ _ _ _ _ Hl Heq) as Hle.
    destruct (string_app_eq_len _ _ _ _ Heq) as [-> Hrest]; [lia|].
    apply string_app_inv_head in Hrest. by subst.
  - destruct (split_at_None _ _ Hs). by exists pre, a.
Qed.

Lemma split_at_Some_leftmost (n h b a : string) :
  split_at n h = Some (b, a) → h = b +:+ n +:+ a ∧ leftmost n b.
Proof.
  intros Hs. apply split_at_Some in Hs as [-> Hmin]. split; [done|].
  intros u v Huv. apply Hmin with (v := v +:+ a).
  rewrite <- !string_app_assoc. rewrite <- !string_app_assoc in Huv. by rewrite Huv.
Qed.

End TextFacts.

Import TextFacts.

(** ** The tag extractor *)

Section Extractor.
Implicit Types tag text pre inner rest : string.

Lemma open_tag_length tag : String.length (open_tag tag) = S (S (String.length tag)).
Proof. unfold open_tag. rewrite !string_length_app. cbn. lia. Qed.

Lemma has_char_app c (a b : string) :
  has_char c (a +:+ b) = has_char c a || has_char c b.
Proof.
  induction a as [|x a IH]; [done|]. norm. cbn. by case_decide.
Qed.

Lemma has_char_mid c (a b : string) : has_char c (a +:+ String c b) = true.
Proof.
  rewrite has_char_app. cbn. rewrite decide_True by done.
  by destruct (has_char c a).
Qed.

(** When the opening tag is cut off at its leftmost occurrence, the pair
    appears exactly when a closing tag follows. *)
Lemma pair_occurs_split tag text pre opened :
  split_at (open_tag tag) text = Some (pre, opened) →
  pair_occurs tag text ↔ occurs (close_tag tag) opened.
Proof.
  intros Hs. apply split_at_Some in Hs as [-> Hmin]. split.
  - intros (p & i & post & Heq). pose proof (Hmin _ _ Heq) as Hle.
    destruct (string_app_eq_app_le _ _ _ _ Heq) as (k & -> & Hk); [done|].
    rewrite <- (string_app_assoc (open_tag tag)), <- (string_app_assoc k) in Hk.
    destruct (string_app_eq_app_le _ _ _ _ Hk) as (k' & _ & ->).
    { rewrite !string_length_app. lia. }
    by exists k', post.
  - intros (u & v & ->). by exists pre, u, v.
Qed.

Lemma pair_occurs_open tag text :
  pair_occurs tag text → occurs (open_tag tag) text.
Proof. intros (p & i & post & ->). by exists p, (i +:+ close_tag tag +:+ post). Qed.

Lemma scan_tags_occurrences fuel tag text :
  String.length text < fuel → occurrences tag text (scan_tags fuel tag text).
Proof.
  revert text. induction fuel as [|fuel IH]; intros text Hlen; [lia|].
  cbn. destruct (split_at (open_tag tag) text) as [[pre opened]|] eqn:Ho.
  - destruct (split_at (close_tag tag) opened) as [[inner rest]|] eqn:Hc.
    + apply split_at_Some_leftmost in Ho as [-> Hlo].
      apply split_at_Some_leftmost in Hc as [-> Hlc].
      constructor; [done..|]. apply IH.
      rewrite !string_length_app, open_tag_length in Hlen. lia.
    + constructor. rewrite (pair_occurs_split _ _ _ _ Ho).
      by apply split_at_None.
  - constructor. intros Hp%pair_occurs_open. by apply split_at_None in Ho.
Qed.

Lemma extract_occurrences text tag :
  occurrences tag text (content (extract_tag_content text tag)).
Proof. apply scan_tags_occurrences. cbn. lia. Qed.

(** The relation fixes the matches. *)
Lemma occurrences_unique tag text ms1 ms2 :
  occurrences tag text ms1 → occurrences tag text ms2 → ms1 = ms2.
Proof.
  intros H1. revert ms2.
  induction H1 as [text Hno|pre inner rest ms Hlo Hlc Hrest IH]; intros ms2 H2.
  - inversion H2 as [|pre inner rest ms ? ? ? Heq]; [done|]. subst.
    destruct Hno. by exists pre, inner, rest.
  - inversion H2 as [? Hno|pre' inner' rest' ms' Hlo' Hlc' Hrest' Heq]; subst.
    { destruct Hno. by exists pre, inner, rest. }
    pose proof (leftmost_in _ _ _ _ _ Hlo' Heq) as Hle1.
    pose proof (leftmost_in _ _ _ _ _ Hlo (eq_sym Heq)) as Hle2.
    destruct (string_app_eq_len _ _ _ _ Heq) as [-> Heq1]; [lia|].
    apply string_app_inv_head in Heq1.
    pose proof (leftmost_in _ _ _ _ _ Hlc' Heq1) as Hle3.
    pose proof (leftmost_in _ _ _ _ _ Hlc (eq_sym Heq1)) as Hle4.
    destruct (string_app_eq_len _ _ _ _ Heq1) as [-> Heq2]; [lia|].
    apply string_app_inv_head in Heq2. subst rest'. f_equal. by apply IH.
Qed.

(** In a tag name without [<], a closing tag cannot overlap itself: the
    one that follows a content without closing tag is the first. *)
Lemma close_tag_leftmost tag inner :
  has_char "<" tag = false → ¬ occurs (close_tag tag) inner →
  leftmost (close_tag tag) inner.
Proof.
  intros Htag Hno u v Heq.
  destruct (decide (String.length inner ≤ String.length u)) as [|Hlt]; [done|].
  exfalso. symmetry in Heq.
  destruct (string_app_eq_app_le _ _ _ _ Heq) as (w & -> & Hw); [lia|].
  destruct (string_app_eq_app _ _ _ _ Hw) as [k [[-> _]|[Hk1 Hk2]]].
  - destruct Hno. by exists u, k.
  - destruct k as [|c k].
    + rewrite string_app_nil_r in Hk1. subst w. destruct Hno. exists u, "".
      by rewrite string_app_nil_r.
    + destruct w as [|y w].
      { rewrite string_length_app in Hlt. cbn in Hlt. lia. }
      unfold close_tag in Hk1, Hk2. norm.
      injection Hk2 as <- _. injection Hk1 as _ Hk1.
      apply (f_equal (has_char "<")) in Hk1.
      rewrite has_char_mid in Hk1. norm. cbn in Hk1.
      rewrite has_char_app, Htag in Hk1. done.
Qed.

Lemma leftmost_nil (n : string) : leftmost n "".
Proof. intros u v _. cbn. lia. Qed.

Lemma no_pair_nil tag : ¬ pair_occurs tag "".
Proof.
  intros (p & i & post & H). apply (f_equal String.length) in H.
  rewrite !string_length_app, open_tag_length in H. cbn in H. lia.
Qed.

Lemma has_pair_spec tag text : has_pair tag text = true ↔ pair_occurs tag text.
Proof.
  unfold has_pair.
  destruct (split_at (open_tag tag) text) as [[pre opened]|] eqn:Ho.
  - rewrite (pair_occurs_split _ _ _ _ Ho), bool_decide_eq_true. split.
    + intros [[b a] Hs]. apply split_at_Some in Hs as [-> _]. by exists b, a.
    + apply split_at_occurs.
  - split; [done|]. intros Hp%pair_occurs_open. by apply split_at_None in Ho.
Qed.

Lemma has_pair_false tag text : has_pair tag text = false → ¬ pair_occurs tag text.
Proof. intros H Hp%has_pair_spec. congruence. Qed.

End Extractor.

(** ** Rational bounds on the exponential *)

Module BoundsFacts.
Import Bounds.
Local Open Scope R_scope.

Lemma scale_pos : 0 < IZR scale.
Proof. apply IZR_lt. reflexivity. Qed.

Lemma IZR_div_le (n d : Z) : (0 < d)%Z → IZR (n / d) <= IZR n / IZR d.
Proof.
  intros Hd. assert (0 < IZR d) as Hd' by (by apply IZR_lt).
  apply Rmult_le_reg_r with (IZR d); [done|].
  replace (IZR n / IZR d * IZR d) with (IZR n) by (field; lra).
  rewrite <- mult_IZR. apply IZR_le.
  rewrite Z.mul_comm. by apply Z.mul_div_le.
Qed.

Lemma sq_down_le (m : Z) :
  IZR (sq_down m) / IZR scale <= (IZR m / IZR scale) * (IZR m / IZR scale).
Proof.
  pose proof scale_pos as HS. unfold sq_down.
  pose proof (IZR_div_le (m * m) scale ltac:(reflexivity)) as H.
  rewrite mult_IZR in H.
  replace (IZR m / IZR scale * (IZR m / IZR scale))
    with (IZR m * IZR m / IZR scale / IZR scale) by (field; lra).
  apply Rmult_le_compat_r; [|done]. apply Rlt_le, Rinv_0_lt_compat, HS.
Qed.

Lemma sq_down_nonneg (m : Z) : (0 <= sq_down m)%Z.
Proof. unfold sq_down. apply Z.div_pos; [nia|reflexivity]. Qed.

(** Squaring [k] times a lower bound of [exp y] bounds [exp (2 ^ k * y)]
    from below. *)
Lemma iter_sq_down_le (k : nat) (m : Z) (y : R) :
  (0 <= m)%Z → IZR m / IZR scale <= exp y →
  (0 <= Nat.iter k sq_down m)%Z ∧
  IZR (Nat.iter k sq_down m) / IZR scale <= exp (2 ^ k * y).
Proof.
  intros Hm Hy. induction k as [|k [IH0 IH]]; cbn [Nat.iter].
  - split; [done|]. by rewrite pow_O, Rmult_1_l.
  - split; [apply sq_down_nonneg|].
    eapply Rle_trans; [apply sq_down_le|].
    replace (2 ^ S k * y) with (2 ^ k * y + 2 ^ k * y) by (cbn; ring).
    rewrite exp_plus.
    assert (0 <= IZR (Nat.iter k sq_down m) / IZR scale) as Hpos.
    { apply Rmult_le_pos; [by apply IZR_le|].
      apply Rlt_le, Rinv_0_lt_compat, scale_pos. }
    by apply Rmult_le_compat.
Qed.

Lemma exp_lower_le (k : nat) (num den : Z) :
  (0 < den)%Z →
  (0 <= scale + scale * num / (den * 2 ^ Z.of_nat k))%Z →
  IZR (exp_lower k num den) / IZR scale <= exp (IZR num / IZR den).
Proof.
  intros Hden Hstart. pose proof scale_pos as HS.
  assert (0 < IZR den) as Hden' by (by apply IZR_lt).
  assert (0 < 2 ^ k) as Hpow by (apply pow_lt; lra).
  set (y := IZR num / (IZR den * 2 ^ k)).
  replace (IZR num / IZR den) with (2 ^ k * y) by (unfold y; field; lra).
  apply iter_sq_down_le; [done|].
  eapply Rle_trans; [|apply exp_ineq1_le].
  rewrite plus_IZR.
  assert (0 < den * 2 ^ Z.of_nat k)%Z as Hd by lia.
  pose proof (IZR_div_le (scale * num) _ Hd) as H.
  rewrite !mult_IZR, <- pow_IZR in H.
  replace (1 + y) with
    ((IZR scale + IZR scale * IZR num / (IZR den * 2 ^ k)) / IZR scale)
    by (unfold y; field; lra).
  apply Rmult_le_compat_r; [apply Rlt_le, Rinv_0_lt_compat, HS|lra].
Qed.

(** [ln x < c] once a lower bound of [exp c] exceeds [x]. *)
Lemma ln_lt_of_bound (k : nat) (x num den : Z) :
  (0 < x)%Z → (0 < den)%Z →
  (0 <= scale + scale * num / (den * 2 ^ Z.of_nat k))%Z →
  (x * scale < exp_lower k num den)%Z →
  ln (IZR x) < IZR num / IZR den.
Proof.
  intros Hx Hden Hstart Hlt. pose proof scale_pos as HS.
  apply exp_lt_inv. rewrite exp_ln by (by apply IZR_lt).
  eapply Rlt_le_trans; [|by apply (exp_lower_le k)].
  apply Rmult_lt_reg_r with (IZR scale); [done|].
  replace (IZR (exp_lower k num den) / IZR scale * IZR scale)
    with (IZR (exp_lower k num den)) by (field; lra).
  rewrite <- mult_IZR. by apply IZR_lt.
Qed.

(** [c < ln x] once a lower bound of [exp (- c)] exceeds [1 / x]. *)
Lemma ln_gt_of_bound (k : nat) (x num den : Z) :
  (0 < x)%Z → (0 < den)%Z →
  (0 <= scale + scale * (- num) / (den * 2 ^ Z.of_nat k))%Z →
  (scale < x * exp_lower k (- num) den)%Z →
  IZR num / IZR den < ln (IZR x).
Proof.
  intros Hx Hden Hstart Hlt. pose proof scale_pos as HS.
  assert (0 < IZR x) as Hx' by (by apply IZR_lt).
  assert (0 < IZR den) as Hden' by (by apply IZR_lt).
  apply Ropp_lt_cancel, exp_lt_inv.
  rewrite exp_Ropp, exp_ln by done.
  eapply Rlt_le_trans; [|replace (- (IZR num / IZR den))
    with (IZR (- num) / IZR den) by (rewrite opp_IZR; field; lra);
    by apply (exp_lower_le k)].
  apply IZR_lt in Hlt. rewrite mult_IZR in Hlt.
  apply Rmult_lt_reg_r with (IZR x * IZR scale); [by apply Rmult_lt_0_compat|].
  replace (/ IZR x * (IZR x * IZR scale)) with (IZR scale) by (field; lra).
  replace (IZR (exp_lower k (- num) den) / IZR scale * (IZR x * IZR scale))
    with (IZR x * IZR (exp_lower k (- num) den)) by (field; lra).
  done.
Qed.

Lemma ln_34560_lower : 104504 / 10000 < ln 34560.
Proof. apply (ln_gt_of_bound 40 34560 104504 10000); by vm_compute. Qed.

Lemma ln_34560_upper : ln 34560 < 104505 / 10000.
Proof. apply (ln_lt_of_bound 40 34560 104505 10000); by vm_compute. Qed.

End BoundsFacts.

(** ** The tools *)

Section Tools.
Context {E : External}.
Local Open Scope Z_scope.

Lemma run_sum_two_elements (a b : Z) :
  run sum_two_elements_tool (<["a" := JInt a]> {["b" := JInt b]})
  = Ok (VInt (sum_two_elements a b)).
Proof. by vm_compute. Qed.

Lemma run_multiply_two_elements (a b : Z) :
  run multiply_two_elements_tool (<["a" := JInt a]> {["b" := JInt b]})
  = Ok (VInt (multiply_two_elements a b)).
Proof. by vm_compute. Qed.

Lemma run_compute_log (x : Z) :
  run compute_log_tool {["x" := JInt x]} = Ok (compute_log x).
Proof. by vm_compute. Qed.

Lemma compute_log_undefined (x : Z) :
  x ≤ 0 →
  compute_log x
  = VStr "Logarithm is undefined for values less than or equal to 0.".
Proof. intros Hx. unfold compute_log. by rewrite decide_True. Qed.

Lemma compute_log_defined (x : Z) :
  0 < x → compute_log x = VFloat (ln (IZR x)).
Proof. intros Hx. unfold compute_log. rewrite decide_False by lia. done. Qed.

End Tools.

(** ** The digits of an integer *)

Section Digits.

Lemma pretty_N_go_length_ge (x : N) (s : string) :
  String.length s ≤ String.length (pretty_N_go x s).
Proof.
  revert s. induction (N.lt_wf_0 x) as [x _ IH]. intros s.
  destruct (decide (0 < x)%N) as [Hx|Hx].
  - rewrite pretty_N_go_step by done.
    etrans; [|apply IH; by apply N.div_lt]. cbn. lia.
  - replace x with 0%N by lia. by rewrite pretty_N_go_0.
Qed.

Lemma pretty_N_go_length (k : nat) (x : N) (s : string) :
  String.length (pretty_N_go x s) ≤ String.length s + k
  ↔ (x < 10 ^ N.of_nat k)%N.
Proof.
  revert x s. induction k as [|k IH]; intros x s.
  - destruct (decide (0 < x)%N) as [Hx|Hx].
    + rewrite pretty_N_go_step by done.
      pose proof (pretty_N_go_length_ge (x `div` 10)%N
                    (String (pretty_N_char (x `mod` 10)) s)) as Hge.
      cbn in *. split; lia.
    + replace x with 0%N by lia. rewrite pretty_N_go_0. cbn. split; lia.
  - destruct (decide (0 < x)%N) as [Hx|Hx].
    + rewrite pretty_N_go_step by done.
      replace (String.length s + S k)
        with (String.length (String (pretty_N_char (x `mod` 10)) s) + k)
        by (cbn; lia).
      rewrite IH. rewrite Nat2N.inj_succ, N.pow_succ_r'.
      pose proof (N.Div0.div_mod x 10) as Hdiv.
      pose proof (N.mod_lt x 10 ltac:(done)) as Hmod.
      generalize dependent (10 ^ N.of_nat k)%N.
      generalize dependent (x `div` 10)%N.
      generalize dependent (x `mod` 10)%N. intros. lia.
    + replace x with 0%N by lia. rewrite pretty_N_go_0.
      split; [intros _|lia]. apply N.neq_0_lt_0, N.pow_nonzero. done.
Qed.

Lemma digits_le (n : Z) (k : nat) :
  0 < k → digits n ≤ k ↔ (Z.abs n < 10 ^ Z.of_nat k)%Z.
Proof.
  intros Hk. unfold digits, pretty, pretty_N.
  assert (10 ^ Z.of_nat k = Z.of_N (10 ^ N.of_nat k))%Z as ->.
  { rewrite N2Z.inj_pow. f_equal. lia. }
  case_decide as H0.
  - assert (n = 0%Z) as -> by lia. cbn [String.length Z.abs].
    split; [intros _|lia]. apply (N2Z.inj_lt 0), N.neq_0_lt_0, N.pow_nonzero. done.
  - rewrite <- (N2Z.inj_abs_N n). rewrite <- N2Z.inj_lt.
    apply (pretty_N_go_length k (Z.abs_N n) "").
Qed.

End Digits.

(** ** The cells *)

Section Cells.
Context {E : External}.
Implicit Types (output s : string) (st : state) (d : gmap string json).

Lemma call_tool_decoded output s tc :
  item0 (content (extract_tag_content output "tool_call")) = Ok s →
  json_loads s = Some tc →
  call_tool output = dispatch tc.
Proof.
  intros Hfirst Hloads. unfold call_tool. rewrite Hfirst. cbn.
  unfold loads. by rewrite Hloads.
Qed.

Lemma call_tool_no_match output :
  content (extract_tag_content output "tool_call") = [] →
  call_tool output = Raise IndexError.
Proof. intros Hnone. unfold call_tool. by rewrite Hnone. Qed.

Lemma call_tool_undecodable output s :
  item0 (content (extract_tag_content output "tool_call")) = Ok s →
  json_loads s = None →
  call_tool output = Raise JSONDecodeError.
Proof.
  intros Hfirst Hloads. unfold call_tool. rewrite Hfirst. cbn.
  unfold loads. by rewrite Hloads.
Qed.

Lemma dispatch_known d n tool kwargs :
  d !! "name" = Some (JStr n) →
  available_tools !! n = Some tool →
  d !! "arguments" = Some (JObj kwargs) →
  dispatch (JObj d) = run tool kwargs.
Proof.
  intros Hname Htool Hargs. unfold dispatch, subscript.
  rewrite Hname. cbn. rewrite Htool. cbn. by rewrite Hargs.
Qed.

Lemma dispatch_unknown d n :
  d !! "name" = Some (JStr n) →
  available_tools !! n = None →
  dispatch (JObj d) = Raise (KeyError (JStr n)).
Proof.
  intros Hname Htool. unfold dispatch, subscript.
  rewrite Hname. cbn. by rewrite Htool.
Qed.

Lemma format_value_cases v :
  format_value v = Ok (py_str v) ∨ format_value v = Raise ValueError.
Proof. destruct v; cbn; repeat case_match; auto. Qed.

Lemma format_value_Ok v text : format_value v = Ok text → text = py_str v.
Proof. destruct (format_value_cases v) as [-> | ->]; congruence. Qed.

Lemma format_value_small (n : Z) :
  digits n ≤ int_max_str_digits → format_value (VInt n) = Ok (pretty n).
Proof. intros Hn. cbn. by rewrite decide_False by lia. Qed.

Lemma format_value_large (n : Z) :
  int_max_str_digits < digits n → format_value (VInt n) = Raise ValueError.
Proof. intros Hn. cbn. by rewrite decide_True. Qed.

(** The integers that can be formatted are those below [10 ^ 4300] in
    absolute value. *)
Lemma format_value_int (n : Z) :
  format_value (VInt n)
  = if decide (Z.abs n < 10 ^ Z.of_nat int_max_str_digits)%Z
    then Ok (pretty n) else Raise ValueError.
Proof.
  destruct (digits_le n int_max_str_digits) as [Hlt Hle];
    [unfold int_max_str_digits; lia|].
  destruct (decide (int_max_str_digits < digits n)) as [Hd|Hd].
  - rewrite (format_value_large _ Hd), decide_False; [done|].
    intros Hz. apply Hle in Hz. clear Hlt Hle. lia.
  - rewrite format_value_small by lia. rewrite decide_True; [done|].
    apply Hlt. clear Hlt Hle. lia.
Qed.

Lemma act_returns output expected st v :
  call_tool output = Ok v →
  check v expected = Ok () →
  format_value v = Ok (py_str v) →
  act output expected st
  = (Ok v, {| chat_history := chat_history st ++ [observation v];
              requests := requests st |}).
Proof.
  intros Hcall Hcheck Hformat. unfold act, lift, mbind, cell_bind.
  by rewrite Hcall, Hcheck, Hformat.
Qed.

Lemma act_fails_format output expected st v :
  call_tool output = Ok v →
  check v expected = Ok () →
  format_value v = Raise ValueError →
  act output expected st = (Raise ValueError, st).
Proof.
  intros Hcall Hcheck Hformat. unfold act, lift, mbind, cell_bind.
  by rewrite Hcall, Hcheck, Hformat.
Qed.

Lemma act_raises output expected st e :
  call_tool output = Raise e → act output expected st = (Raise e, st).
Proof. intros Hcall. unfold act, lift, mbind, cell_bind. by rewrite Hcall. Qed.

Lemma act_fails_check output expected st v :
  call_tool output = Ok v →
  check v expected = Raise AssertionError →
  act output expected st = (Raise AssertionError, st).
Proof.
  intros Hcall Hcheck. unfold act, lift, mbind, cell_bind.
  by rewrite Hcall, Hcheck.
Qed.

Lemma check_cases v expected :
  check v expected = Ok () ∨ check v expected = Raise AssertionError.
Proof.
  destruct expected as [w|]; cbn; [|by left]. destruct (py_eq v w); auto.
Qed.

(** What the cell can do: return the value of the tool call, its
    observation appended, or stop on a fault, the conversation as it was. *)
Lemma act_cases output expected st :
  (∃ v, call_tool output = Ok v ∧ check v expected = Ok () ∧
        format_value v = Ok (py_str v) ∧
        act output expected st
        = (Ok v, {| chat_history := chat_history st ++ [observation v];
                    requests := requests st |})) ∨
  (∃ e, act output expected st = (Raise e, st)).
Proof.
  destruct (call_tool output) as [v|e] eqn:Hcall.
  - destruct (check_cases v expected) as [Hcheck|Hcheck].
    + destruct (format_value_cases v) as [Hformat|Hformat].
      * left. exists v. split_and!; [done..|]. by apply act_returns.
      * right. eexists. by apply (act_fails_format _ _ _ v).
    + right. eexists. by apply (act_fails_check _ _ _ v).
  - right. eexists. by apply act_raises.
Qed.

(** A cell that raises ends the run: what follows it is not executed. *)
Lemma bind_raises {A B} (c : cell A) (k : A → cell B) st e st' :
  c st = (Raise e, st') → (c ≫= k) st = (Raise e, st').
Proof. intros Hc. unfold mbind, cell_bind. by rewrite Hc. Qed.

Lemma think_appends st :
  think st
  = (Ok (llm (chat_history st)),
     {| chat_history :=
          chat_history st ++ [Msg.mk Msg.assistant (llm (chat_history st))];
        requests := S (requests st) |}).
Proof. reflexivity. Qed.

Lemma round_unfold expected st :
  round expected st
  = act (llm (chat_history st)) expected
      {| chat_history :=
           chat_history st ++ [Msg.mk Msg.assistant (llm (chat_history st))];
         requests := S (requests st) |}.
Proof. reflexivity. Qed.

End Cells.

(** ** The definitions at work *)

Example extract_examples :
  content (extract_tag_content "a<t>x</t>b<t>y
z</t><t>" "t") = ["x"; "y
z"] ∧
  content (extract_tag_content "<T>x</T>" "t") = [] ∧
  content (extract_tag_content "</t>x<t>" "t") = [] ∧
  content (extract_tag_content "<t>a<t>b</t>c</t>" "t") = ["a<t>b"] ∧
  content (extract_tag_content "<t></t>" "t") = [""].
Proof. by vm_compute. Qed.

Example run_examples {E : External} :
  run sum_two_elements_tool {["a" := JInt 1]} = Raise (ArgumentError "b") ∧
  run sum_two_elements_tool
    (<["a" := JInt 1]> (<["b" := JInt 2]> {["c" := JInt 3]}))
  = Raise ToolExecutionError ∧
  run multiply_two_elements_tool (<["a" := JInt (-3)]> {["b" := JInt 5]})
  = Ok (VInt (-15)) ∧
  run compute_log_tool {["x" := JInt (-1)]}
  = Ok (VStr "Logarithm is undefined for values less than or equal to 0.") ∧
  available_tools !! "compute_log" = Some compute_log_tool ∧
  available_tools !! "get_current_weather" = None.
Proof. split_and!; reflexivity. Qed.

Example py_str_examples :
  py_str (E := scenario_A) (VInt 6912) = "6912" ∧
  py_str (E := scenario_A) (VInt 0) = "0" ∧
  py_str (E := scenario_A) (VInt (-15)) = "-15" ∧
  py_str (E := scenario_A) (VStr "Logarithm") = "Logarithm" ∧
  String.length sum_call = 74.
Proof. by vm_compute. Qed.

(** The limit of the conversion: [10 ^ 4300] is the least integer of 4301
    digits. *)
Example format_value_examples :
  format_value (E := scenario_A) (VInt 6912) = Ok "6912" ∧
  format_value (E := scenario_A) (VInt (-15)) = Ok "-15" ∧
  format_value (E := scenario_A) (VInt (10 ^ 4300)) = Raise ValueError ∧
  format_value (E := scenario_A) (VInt (- 10 ^ 4300)) = Raise ValueError ∧
  format_value (E := scenario_A) (VStr "Logarithm") = Ok "Logarithm".
Proof.
  assert (0 < 10 ^ 4300)%Z as Hpos by (by apply Z.pow_pos_nonneg).
  split_and!; [reflexivity..| | |reflexivity].
  - rewrite format_value_int, decide_False; [done|].
    change (Z.of_nat int_max_str_digits) with 4300%Z.
    generalize dependent (10 ^ 4300)%Z. intros. lia.
  - rewrite format_value_int, decide_False; [done|].
    change (Z.of_nat int_max_str_digits) with 4300%Z.
    generalize dependent (10 ^ 4300)%Z. intros. lia.
Qed.

(** ** The claims on the extractor *)

Lemma unterminated_no_pair (tag text : string) :
  ¬ occurs (close_tag tag) text → ¬ pair_occurs tag text.
Proof.
  intros Hno (p & i & post & ->). destruct Hno.
  exists (p +:+ open_tag tag +:+ i), post. by rewrite !string_app_assoc.
Qed.

(** C5: for every text in which the pair [<tag>...</tag>] does not appear,
    an opening tag that is never closed included, the extractor returns a
    result whose sequence of matches is empty; being a total function, it
    never throws. *)
Theorem extract_absent (text tag : string) :
  ¬ pair_occurs tag text →
  extract_tag_content text tag = {| tag_of := tag; content := [] |}.
Proof.
  intros Hno. unfold extract_tag_content. f_equal.
  pose proof (extract_occurrences text tag) as Hocc. cbn in Hocc.
  inversion Hocc as [|pre inner rest ms _ _ _ Heq]; [done|].
  destruct Hno. subst text. by exists pre, inner, rest.
Qed.

Lemma extract_absent_witness :
  ¬ pair_occurs "tool_call" "<thought>add them</thought><tool_call>{" ∧
  extract_tag_content "<thought>add them</thought><tool_call>{" "tool_call"
  = {| tag_of := "tool_call"; content := [] |}.
Proof.
  split.
  - apply unterminated_no_pair, split_at_None. reflexivity.
  - apply extract_absent, has_pair_false. reflexivity.
Defined.

(** C6: for every text the extractor returns the inner contents of the
    non-overlapping occurrences of the pair [<tag>...</tag>] in order of
    appearance; in particular, on [<tag>X</tag>], where [X] may hold other
    tags and newlines but not the closing tag, it returns exactly [[X]]
    (a tag name holds no [<]). *)
Theorem extract_in_order :
  (∀ text tag, occurrences tag text (content (extract_tag_content text tag))) ∧
  (∀ tag X,
     has_char "<"%char tag = false →
     ¬ occurs (close_tag tag) X →
     content (extract_tag_content (open_tag tag +:+ X +:+ close_tag tag) tag)
     = [X]).
Proof.
  split; [apply extract_occurrences|].
  intros tag X Htag HX.
  apply (occurrences_unique tag (open_tag tag +:+ X +:+ close_tag tag));
    [apply extract_occurrences|].
  pose proof (occ_cons tag "" X "" [] (leftmost_nil _)
                (close_tag_leftmost _ _ Htag HX)
                (occ_none _ _ (no_pair_nil tag))) as Hocc.
  by rewrite string_app_nil_l, string_app_nil_r in Hocc.
Qed.

Lemma extract_in_order_witness :
  content (extract_tag_content
    (open_tag "response" +:+ "<b>6912</b>
is the sum" +:+ close_tag "response") "response")
  = ["<b>6912</b>
is the sum"].
Proof.
  apply (proj2 extract_in_order "response").
  - reflexivity.
  - apply split_at_None. reflexivity.
Defined.

(** ** The claims on the tools *)

(** C3: for every integer [x <= 0], [compute_log x] returns the string
    "Logarithm is undefined for values less than or equal to 0." as an
    ordinary value, also through [run]; the cell that runs such a call
    (and does not assert another result) appends it as an ordinary
    observation and raises nothing, and so does the agent loop. *)
Theorem compute_log_nonpositive {E : External} (x : Z) :
  (x ≤ 0)%Z →
  compute_log x
  = VStr "Logarithm is undefined for values less than or equal to 0." ∧
  run compute_log_tool {["x" := JInt x]}
  = Ok (VStr "Logarithm is undefined for values less than or equal to 0.") ∧
  (∀ (output s : string) (d : gmap string json) (expected : option value)
     (st : state),
     item0 (content (extract_tag_content output "tool_call")) = Ok s →
     json_loads s = Some (JObj d) →
     d !! "name" = Some (JStr "compute_log") →
     d !! "arguments" = Some (JObj {["x" := JInt x]}) →
     check (VStr "Logarithm is undefined for values less than or equal to 0.")
       expected = Ok () →
     act output expected st
     = (Ok (VStr "Logarithm is undefined for values less than or equal to 0."),
        {| chat_history := chat_history st ++
             [Msg.mk Msg.user
                "<observation>Logarithm is undefined for values less than or equal to 0.</observation>"];
           requests := requests st |})) ∧
  (∀ id,
     observe available_tools (ToolCall.mk "compute_log" {["x" := JInt x]} id)
     = Msg.mk Msg.user
         "<observation>Logarithm is undefined for values less than or equal to 0.</observation>").
Proof.
  intros Hx. pose proof (compute_log_undefined x Hx) as Hlog.
  split_and!.
  - done.
  - by rewrite run_compute_log, Hlog.
  - intros output s d expected st Hfirst Hloads Hname Hargs Hcheck.
    rewrite (act_returns output expected st (compute_log x)).
    + by rewrite Hlog.
    + rewrite (call_tool_decoded _ _ _ Hfirst Hloads).
      rewrite (dispatch_known d "compute_log" compute_log_tool _ Hname eq_refl Hargs).
      apply run_compute_log.
    + by rewrite Hlog.
    + by rewrite Hlog.
  - intros id. unfold observe. cbn [ToolCall.name ToolCall.arguments].
    replace (available_tools !! "compute_log") with (Some compute_log_tool)
      by reflexivity.
    by rewrite run_compute_log, Hlog.
Qed.

Lemma compute_log_nonpositive_witness :
  compute_log 0
  = VStr "Logarithm is undefined for values less than or equal to 0." ∧
  act (E := scenario_B)
      (tool_call_reply "I need the logarithm of 0" log0_call) None
      (initial (E := scenario_B) "What is the logarithm of 0?")
  = (Ok (VStr "Logarithm is undefined for values less than or equal to 0."),
     {| chat_history :=
          chat_history (initial (E := scenario_B) "What is the logarithm of 0?") ++
          [Msg.mk Msg.user
             "<observation>Logarithm is undefined for values less than or equal to 0.</observation>"];
        requests := 0 |}).
Proof.
  pose proof (compute_log_nonpositive (E := scenario_B) 0 ltac:(lia))
    as (Hlog & _ & Hact & _).
  split; [exact Hlog|].
  apply (Hact _ log0_call
           (<["name" := JStr "compute_log"]>
              (<["arguments" := JObj {["x" := JInt 0]}]> (<["id" := JInt 0]> ∅))));
    reflexivity.
Defined.

(** *** Scenario A, cell by cell *)

Lemma round_returns_value {E : External} (expected : option value)
    (st : state) (v : value) :
  call_tool (llm (chat_history st)) = Ok v →
  check v expected = Ok () →
  format_value v = Ok (py_str v) →
  round expected st
  = (Ok v,
     {| chat_history := chat_history st ++
          [Msg.mk Msg.assistant (llm (chat_history st)); observation v];
        requests := S (requests st) |}).
Proof.
  intros Hcall Hcheck Hformat.
  unfold round. unfold mbind at 1. unfold cell_bind. rewrite think_appends.
  rewrite (act_returns _ _ _ _ Hcall Hcheck Hformat). cbn.
  by rewrite <- app_assoc.
Qed.

(** The notebook run on the replies of Scenario A: the three assertions
    hold and the three observations are appended. *)
Lemma scenario_A_walkthrough :
  walkthrough (E := scenario_A) (initial (E := scenario_A) USER_QUESTION)
  = (Ok (VInt 6912, VInt 34560, VFloat (ln 34560),
         "<response>The result is 10.450452222917992</response>"),
     {| chat_history :=
          chat_history (initial (E := scenario_A) USER_QUESTION) ++
          [Msg.mk Msg.assistant
             (tool_call_reply "I need to calculate the sum of 1234 and 5678"
                sum_call);
           Msg.mk Msg.user "<observation>6912</observation>";
           Msg.mk Msg.assistant
             (tool_call_reply "I need to multiply the result by 5" multiply_call);
           Msg.mk Msg.user "<observation>34560</observation>";
           Msg.mk Msg.assistant
             (tool_call_reply "I need to take the logarithm of the result"
                log_call);
           Msg.mk Msg.user "<observation>10.450452222917992</observation>"];
        requests := 4 |}).
Proof.
  unfold walkthrough.
  unfold mbind at 1. unfold cell_bind.
  rewrite (round_returns_value (E := scenario_A) _ _ (VInt 6912));
    [|reflexivity..].
  unfold mbind at 1. unfold cell_bind.
  rewrite (round_returns_value (E := scenario_A) _ _ (VInt 34560));
    [|reflexivity..].
  unfold mbind at 1. unfold cell_bind.
  rewrite (round_returns_value (E := scenario_A) _ _ (VFloat (ln 34560)));
    [|reflexivity| |reflexivity].
  - reflexivity.
  - cbn. by rewrite bool_decide_eq_true_2.
Qed.

(** C4 (as amended): the tools equal their reference functions: for all
    integers [a] and [b], [sum_two_elements a b = a + b] and
    [multiply_two_elements a b = a * b], and for every integer [x > 0],
    [compute_log x] is the natural logarithm of [x]; on the inputs of
    Scenario A the calls yield 6912, then 34560, then [ln 34560], which is
    10.4505 to four decimals (it lies between 10.4504 and 10.4505); the
    walkthrough of the notebook, assertions included, returns these three
    results. *)
Theorem tools_match_reference {E : External} :
  (∀ a b : Z, sum_two_elements a b = (a + b)%Z) ∧
  (∀ a b : Z, multiply_two_elements a b = (a * b)%Z) ∧
  (∀ x : Z, (0 < x)%Z → compute_log x = VFloat (ln (IZR x))) ∧
  run sum_two_elements_tool (<["a" := JInt 1234]> {["b" := JInt 5678]})
  = Ok (VInt 6912) ∧
  run multiply_two_elements_tool (<["a" := JInt 6912]> {["b" := JInt 5]})
  = Ok (VInt 34560) ∧
  run compute_log_tool {["x" := JInt 34560]} = Ok (VFloat (ln 34560)) ∧
  (104504 / 10000 < ln 34560 < 104505 / 10000)%R ∧
  agree4 (ln 34560) (104505 / 10000) ∧
  (walkthrough (E := scenario_A) (initial (E := scenario_A) USER_QUESTION)).1
  = Ok (VInt 6912, VInt 34560, VFloat (ln 34560),
        "<response>The result is 10.450452222917992</response>").
Proof.
  pose proof BoundsFacts.ln_34560_lower as Hlo.
  pose proof BoundsFacts.ln_34560_upper as Hup.
  split_and!.
  - done.
  - done.
  - apply compute_log_defined.
  - by rewrite run_sum_two_elements.
  - by rewrite run_multiply_two_elements.
  - rewrite run_compute_log. by rewrite compute_log_defined.
  - done.
  - done.
  - unfold agree4, Rabs. destruct (Rcase_abs _); lra.
  - by rewrite scenario_A_walkthrough.
Qed.

Lemma tools_match_reference_witness :
  compute_log 34560 = VFloat (ln (IZR 34560%Z)).
Proof.
  apply (proj1 (proj2 (proj2 (tools_match_reference (E := scenario_A))))
           34560%Z).
  lia.
Defined.

Lemma agree4_close (x y : R) :
  (1 / 10000 < Rabs (x - y))%R → ¬ agree4 x y.
Proof. unfold agree4. intros Hfar Hclose. lra. Qed.

(** The logarithm of Scenario A is not 10.4501 to four decimals: it is
    more than 0.0001 away, which [agree4] excludes ([agree4_close]). *)
Lemma log_34560_is_not_10_4501 :
  run (compute_log_tool (E := scenario_A)) {["x" := JInt 34560]}
  = Ok (VFloat (ln 34560)) ∧
  (1 / 10000 < Rabs (ln 34560 - 104501 / 10000))%R.
Proof.
  split.
  - rewrite run_compute_log. by rewrite compute_log_defined.
  - pose proof BoundsFacts.ln_34560_lower as Hlo.
    unfold Rabs. destruct (Rcase_abs _); lra.
Qed.

(** ** The claims on the cells *)

(** C10 (as amended): after a tool call that returns [v] and passes the
    assertion of its step, the cell appends to the conversation one message
    of role [user] whose content is [<observation>], the text Python
    formats [v] to, [</observation>]; when the assertion fails the cell
    stops with [AssertionError] and appends nothing, and so it does, with
    [ValueError], when the text cannot be built. *)
Theorem observation_is_user_message {E : External} (output : string)
    (expected : option value) (st : state) (v : value) :
  call_tool output = Ok v →
  (check v expected = Ok () →
   ∀ text, format_value v = Ok text →
     text = py_str v ∧
     act output expected st
     = (Ok v,
        {| chat_history := chat_history st ++
             [Msg.mk Msg.user ("<observation>" +:+ text +:+ "</observation>")];
           requests := requests st |})) ∧
  (check v expected = Raise AssertionError →
   act output expected st = (Raise AssertionError, st)) ∧
  (check v expected = Ok () →
   format_value v = Raise ValueError →
   act output expected st = (Raise ValueError, st)).
Proof.
  intros Hcall. split_and!.
  - intros Hcheck text Hformat.
    pose proof (format_value_Ok _ _ Hformat) as ->. split; [done|].
    by apply act_returns.
  - by apply act_fails_check.
  - by apply act_fails_format.
Qed.

Lemma observation_is_user_message_witness :
  call_tool (E := scenario_A)
    (tool_call_reply "I need to calculate the sum of 1234 and 5678" sum_call)
  = Ok (VInt 6912) ∧
  act (E := scenario_A)
    (tool_call_reply "I need to calculate the sum of 1234 and 5678" sum_call)
    (Some (VInt (1234 + 5678)))
    {| chat_history := []; requests := 1 |}
  = (Ok (VInt 6912),
     {| chat_history := [Msg.mk Msg.user "<observation>6912</observation>"];
        requests := 1 |}).
Proof.
  split; [reflexivity|].
  apply (proj1 (observation_is_user_message (E := scenario_A)
                  (tool_call_reply "I need to calculate the sum of 1234 and 5678"
                     sum_call)
                  (Some (VInt (1234 + 5678)))
                  {| chat_history := []; requests := 1 |} (VInt 6912) eq_refl)
               eq_refl "6912" eq_refl).
Defined.

(** A tool call that succeeds is not always observed: when the model
    skips the sum and multiplies at once, the call returns 34560, the
    assertion of step 2 fails, and the run stops after one request with
    the reply in the conversation and no observation. *)
Lemma wrong_result_is_not_observed :
  call_tool (E := multiply_first)
    (tool_call_reply "I need to multiply the result by 5" multiply_call)
  = Ok (VInt 34560) ∧
  walkthrough (E := multiply_first) (initial (E := multiply_first) USER_QUESTION)
  = (Raise AssertionError,
     {| chat_history :=
          chat_history (initial (E := multiply_first) USER_QUESTION) ++
          [Msg.mk Msg.assistant
             (tool_call_reply "I need to multiply the result by 5" multiply_call)];
        requests := 1 |}).
Proof. by vm_compute. Qed.

(** C1 (as amended): for a parsed tool call whose name is not in the
    registry, the lookup [available_tools[name]] raises [KeyError] for that
    name; nothing catches it: the cell appends no observation, and the
    cells after it, the next model request among them, do not run. *)
Theorem unknown_tool_raises {E : External} (output s : string)
    (d : gmap string json) (n : string) (expected : option value)
    (st : state) :
  item0 (content (extract_tag_content output "tool_call")) = Ok s →
  json_loads s = Some (JObj d) →
  d !! "name" = Some (JStr n) →
  available_tools !! n = None →
  act output expected st = (Raise (KeyError (JStr n)), st) ∧
  ∀ (B : Type) (next : value → cell B),
    (act output expected ≫= next) st = (Raise (KeyError (JStr n)), st).
Proof.
  intros Hfirst Hloads Hname Hnone.
  assert (act output expected st = (Raise (KeyError (JStr n)), st)) as Hact.
  { apply act_raises. rewrite (call_tool_decoded _ _ _ Hfirst Hloads).
    by apply dispatch_unknown. }
  split; [done|]. intros B next. by apply bind_raises.
Qed.

Lemma unknown_tool_raises_witness :
  act (E := scenario_D)
    (tool_call_reply "I need to get the current weather in Madrid" weather_call)
    (Some (VInt (1234 + 5678)))
    {| chat_history := []; requests := 1 |}
  = (Raise (KeyError (JStr "get_current_weather")),
     {| chat_history := []; requests := 1 |}).
Proof.
  apply (unknown_tool_raises (E := scenario_D) _ weather_call
           (<["name" := JStr "get_current_weather"]>
              (<["arguments" := JObj {["location" := JStr "Madrid"]}]>
                 (<["id" := JInt 0]> ∅)))
           "get_current_weather");
    reflexivity.
Defined.

(** On a tool call that names an unregistered tool the run stops with
    [KeyError] after one request; the conversation holds the reply and no
    observation. *)
Lemma unknown_tool_stops_the_run :
  walkthrough (E := scenario_D)
    (initial (E := scenario_D) "What's the current temperature in Madrid?")
  = (Raise (KeyError (JStr "get_current_weather")),
     {| chat_history :=
          chat_history
            (initial (E := scenario_D) "What's the current temperature in Madrid?")
          ++ [Msg.mk Msg.assistant
                (tool_call_reply "I need to get the current weather in Madrid"
                   weather_call)];
        requests := 1 |}).
Proof. by vm_compute. Qed.

(** C2 (as amended): when the reply has no [tool_call] tag, the cell
    indexes the empty sequence of matches and raises [IndexError]; when the
    first match is not JSON, it raises [JSONDecodeError]; when it decodes to
    something that is not an object, [TypeError]; to an object without
    [name], or without [arguments] for a registered tool, [KeyError].
    Nothing catches these faults and nothing is retried: the conversation
    is left as it was. *)
Theorem malformed_reply_raises {E : External} (output : string)
    (expected : option value) (st : state) :
  (content (extract_tag_content output "tool_call") = [] →
   act output expected st = (Raise IndexError, st)) ∧
  (∀ s, item0 (content (extract_tag_content output "tool_call")) = Ok s →
        json_loads s = None →
        act output expected st = (Raise JSONDecodeError, st)) ∧
  (∀ s tc, item0 (content (extract_tag_content output "tool_call")) = Ok s →
           json_loads s = Some tc →
           (∀ d, tc ≠ JObj d) →
           act output expected st = (Raise TypeError, st)) ∧
  (∀ s d, item0 (content (extract_tag_content output "tool_call")) = Ok s →
          json_loads s = Some (JObj d) →
          d !! "name" = None →
          act output expected st = (Raise (KeyError (JStr "name")), st)) ∧
  (∀ s d n tool,
     item0 (content (extract_tag_content output "tool_call")) = Ok s →
     json_loads s = Some (JObj d) →
     d !! "name" = Some (JStr n) →
     available_tools !! n = Some tool →
     d !! "arguments" = None →
     act output expected st = (Raise (KeyError (JStr "arguments")), st)).
Proof.
  split_and!.
  - intros Hnone. by apply act_raises, call_tool_no_match.
  - intros s Hfirst Hloads. by eapply act_raises, call_tool_undecodable.
  - intros s tc Hfirst Hloads Hobj. apply act_raises.
    rewrite (call_tool_decoded _ _ _ Hfirst Hloads).
    destruct tc; try done. by destruct (Hobj d).
  - intros s d Hfirst Hloads Hname. apply act_raises.
    rewrite (call_tool_decoded _ _ _ Hfirst Hloads).
    unfold dispatch, subscript. by rewrite Hname.
  - intros s d n tool Hfirst Hloads Hname Htool Hargs. apply act_raises.
    rewrite (call_tool_decoded _ _ _ Hfirst Hloads).
    unfold dispatch, subscript. rewrite Hname. cbn. rewrite Htool. cbn.
    by rewrite Hargs.
Qed.

Lemma malformed_reply_raises_witness :
  act (E := scenario_C) "The sum of 1234 and 5678 is 6912."
    (Some (VInt (1234 + 5678))) {| chat_history := []; requests := 1 |}
  = (Raise IndexError, {| chat_history := []; requests := 1 |}) ∧
  act (E := scenario_C) "<tool_call>sum_two_elements(1234, 5678)</tool_call>"
    (Some (VInt (1234 + 5678))) {| chat_history := []; requests := 2 |}
  = (Raise JSONDecodeError, {| chat_history := []; requests := 2 |}).
Proof.
  split.
  - apply (proj1 (malformed_reply_raises (E := scenario_C) _ _ _)). reflexivity.
  - apply (proj1 (proj2 (malformed_reply_raises (E := scenario_C) _ _ _))
             "sum_two_elements(1234, 5678)"); reflexivity.
Defined.

(** On a reply with neither tag the run stops with [IndexError] after one
    request: no retry, no abort that reports the reply. *)
Lemma reply_without_tags_stops_the_run :
  content (extract_tag_content "The sum of 1234 and 5678 is 6912." "response")
  = [] ∧
  content (extract_tag_content "The sum of 1234 and 5678 is 6912." "tool_call")
  = [] ∧
  walkthrough (E := scenario_C) (initial (E := scenario_C) USER_QUESTION)
  = (Raise IndexError,
     {| chat_history :=
          chat_history (initial (E := scenario_C) USER_QUESTION)
          ++ [Msg.mk Msg.assistant "The sum of 1234 and 5678 is 6912."];
        requests := 1 |}).
Proof. by vm_compute. Qed.

(** C9: the [id] of a tool call is not used: two tool calls that differ in
    their integer [id] only resolve to the same tool, return the same
    result and append the same observation. *)
Theorem id_not_used {E : External} (d : gmap string json) (i1 i2 : Z)
    (output1 output2 s1 s2 : string) (expected : option value) (st : state) :
  item0 (content (extract_tag_content output1 "tool_call")) = Ok s1 →
  json_loads s1 = Some (JObj (<["id" := JInt i1]> d)) →
  item0 (content (extract_tag_content output2 "tool_call")) = Ok s2 →
  json_loads s2 = Some (JObj (<["id" := JInt i2]> d)) →
  (subscript (JObj (<["id" := JInt i1]> d)) "name" ≫= resolve available_tools)
  = (subscript (JObj (<["id" := JInt i2]> d)) "name" ≫= resolve available_tools) ∧
  call_tool output1 = call_tool output2 ∧
  act output1 expected st = act output2 expected st.
Proof.
  intros Hfirst1 Hloads1 Hfirst2 Hloads2.
  assert (∀ i, dispatch (JObj (<["id" := JInt i]> d)) = dispatch (JObj d)) as Hid.
  { intros i. unfold dispatch, subscript.
    by rewrite !lookup_insert_ne by done. }
  assert (call_tool output1 = call_tool output2) as Hcall.
  { rewrite (call_tool_decoded _ _ _ Hfirst1 Hloads1).
    rewrite (call_tool_decoded _ _ _ Hfirst2 Hloads2).
    by rewrite !Hid. }
  split_and!.
  - unfold subscript. by rewrite !lookup_insert_ne by done.
  - done.
  - unfold act. by rewrite Hcall.
Qed.

Lemma id_not_used_witness :
  call_tool (E := two_ids) (tool_call_reply "I need the sum" sum_call)
  = call_tool (E := two_ids) (tool_call_reply "I need the sum" sum_call_7) ∧
  act (E := two_ids) (tool_call_reply "I need the sum" sum_call)
    (Some (VInt (1234 + 5678))) {| chat_history := []; requests := 1 |}
  = act (E := two_ids) (tool_call_reply "I need the sum" sum_call_7)
    (Some (VInt (1234 + 5678))) {| chat_history := []; requests := 1 |}.
Proof.
  apply (id_not_used (E := two_ids)
           (<["name" := JStr "sum_two_elements"]>
              (<["arguments" := JObj (<["a" := JInt 1234]> {["b" := JInt 5678]})]> ∅))
           0 7 _ _ sum_call sum_call_7 _).
  - reflexivity.
  - by vm_compute.
  - reflexivity.
  - by vm_compute.
Defined.

(** *** The conversation only grows *)

Section AppendOnly.
Context {E : External}.

Lemma appends_ret {A} (a : A) : appends (mret a).
Proof. intros st. done. Qed.

Lemma appends_lift {A} (r : result A) : appends (lift r).
Proof. intros st. done. Qed.

Lemma appends_append (m : Msg.t) : appends (append m).
Proof. intros st. cbn. by apply prefix_app_r. Qed.

Lemma appends_ask : appends ask.
Proof. intros st. done. Qed.

Lemma appends_bind {A B} (c : cell A) (k : A → cell B) :
  appends c → (∀ a, appends (k a)) → appends (c ≫= k).
Proof.
  intros Hc Hk st. unfold mbind, cell_bind.
  specialize (Hc st). destruct (c st) as [[a|e] st1]; cbn in *; [|done].
  etrans; [done|]. apply Hk.
Qed.

Lemma appends_think : appends think.
Proof.
  apply appends_bind; [apply appends_ask|]. intros output.
  apply appends_bind; [apply appends_append|]. intros _. apply appends_ret.
Qed.

Lemma appends_act (output : string) (expected : option value) :
  appends (act output expected).
Proof.
  apply appends_bind; [apply appends_lift|]. intros v.
  apply appends_bind; [apply appends_lift|]. intros _.
  apply appends_bind; [apply appends_lift|]. intros text.
  apply appends_bind; [apply appends_append|]. intros _. apply appends_ret.
Qed.

Lemma appends_round (expected : option value) : appends (round expected).
Proof.
  apply appends_bind; [apply appends_think|]. intros output. apply appends_act.
Qed.

Lemma appends_walkthrough : appends walkthrough.
Proof.
  repeat (apply appends_bind; [apply appends_round|]; intros ?).
  apply appends_bind; [apply appends_ask|]. intros ?. apply appends_ret.
Qed.

Lemma round_returns (expected : option value) (st st' : state) (v : value) :
  round expected st = (Ok v, st') →
  call_tool (llm (chat_history st)) = Ok v ∧
  st' = {| chat_history := chat_history st ++
             [Msg.mk Msg.assistant (llm (chat_history st)); observation v];
           requests := S (requests st) |}.
Proof.
  unfold round. unfold mbind at 1. unfold cell_bind. rewrite think_appends.
  match goal with |- context [act ?o _ ?s] =>
    destruct (act_cases o expected s) as [(v' & Hcall & _ & _ & ->)|(e & ->)]
  end; [|done].
  intros [= <- <-]. split; [done|]. cbn. by rewrite <- app_assoc.
Qed.

End AppendOnly.

(** C8: during a run the conversation is append-only: asking the model
    appends its reply, running the tool call appends the observation (or
    nothing, when the call, the assertion or the formatting of the result
    raises), so an iteration that succeeds appends
    the assistant reply and then the observation; whatever a round or the
    whole walkthrough does, also when it stops on a fault, the messages
    that were there stay, in place and unchanged. *)
Theorem chat_history_append_only {E : External} :
  (∀ st, chat_history (think st).2
         = chat_history st ++ [Msg.mk Msg.assistant (llm (chat_history st))]) ∧
  (∀ output expected st,
     chat_history (act output expected st).2
     = chat_history st ++
       match call_tool output ≫= λ v, check v expected ≫= λ _,
             format_value v ≫= λ _, Ok v with
       | Ok v => [observation v]
       | Raise _ => []
       end) ∧
  (∀ expected st v st',
     round expected st = (Ok v, st') →
     chat_history st'
     = chat_history st ++
       [Msg.mk Msg.assistant (llm (chat_history st)); observation v]) ∧
  (∀ expected st,
     chat_history st `prefix_of` chat_history (round expected st).2) ∧
  (∀ st, chat_history st `prefix_of` chat_history (walkthrough st).2).
Proof.
  split_and!.
  - done.
  - intros output expected st.
    destruct (call_tool output) as [v|e] eqn:Hcall; cbn.
    + destruct (check_cases v expected) as [Hcheck|Hcheck]; rewrite Hcheck; cbn.
      * destruct (format_value_cases v) as [Hformat|Hformat];
          rewrite Hformat; cbn.
        -- by rewrite (act_returns _ _ _ _ Hcall Hcheck Hformat).
        -- rewrite (act_fails_format _ _ _ _ Hcall Hcheck Hformat). cbn.
           by rewrite app_nil_r.
      * rewrite (act_fails_check _ _ _ _ Hcall Hcheck). cbn.
        by rewrite app_nil_r.
    + rewrite (act_raises _ _ _ _ Hcall). cbn. by rewrite app_nil_r.
  - intros expected st v st' Hround.
    by apply round_returns in Hround as [_ ->].
  - intros expected. apply appends_round.
  - apply appends_walkthrough.
Qed.

Lemma chat_history_append_only_witness :
  chat_history (initial (E := scenario_A) USER_QUESTION)
  `prefix_of`
  chat_history
    (walkthrough (E := scenario_A) (initial (E := scenario_A) USER_QUESTION)).2.
Proof.
  apply (proj2 (proj2 (proj2 (proj2 (chat_history_append_only (E := scenario_A)))))).
Defined.

(** The walkthrough is straight-line code: it sends at most four requests. *)
Lemma walkthrough_requests {E : External} (st : state) :
  requests (walkthrough st).2 ≤ requests st + 4.
Proof.
  assert (∀ expected s, requests (round expected s).2 = S (requests s)) as Hround.
  { intros expected s. unfold round. unfold mbind at 1. unfold cell_bind.
    rewrite think_appends.
    match goal with |- context [act ?o _ ?s'] =>
      by destruct (act_cases o expected s') as [(v & _ & _ & _ & ->)|(e & ->)]
    end. }
  unfold walkthrough, mbind, cell_bind.
  pose proof (Hround (Some (VInt (1234 + 5678))) st) as H1.
  destruct (round _ st) as [[r1|e1] st1]; cbn in *; [|lia].
  pose proof (Hround (Some (VInt ((1234 + 5678) * 5))) st1) as H2.
  destruct (round _ st1) as [[r2|e2] st2]; cbn in *; [|lia].
  pose proof (Hround (Some (VFloat (math_log ((1234 + 5678) * 5)))) st2) as H3.
  destruct (round _ st2) as [[r3|e3] st3]; cbn in *; lia.
Qed.

(** ** The agent loop *)

Section AgentLoopFacts.
Context {E : External}.
Implicit Types (tools : gmap string Tool) (st : state).

(** Every iteration sends one request, and there are no more iterations
    than the budget allows. *)
Lemma agent_loop_requests tools budget retries st :
  requests st ≤ requests (agent_loop tools budget retries st).2
  ≤ requests st + budget.
Proof.
  revert retries st. induction budget as [|budget IH]; intros retries st.
  - cbn. lia.
  - cbn [agent_loop].
    destruct (content (extract_tag_content _ "response")) as [|answer ?].
    + destruct (head _ ≫= parse_tool_call) as [call|].
      * match goal with |- context [agent_loop _ _ _ ?s] =>
          specialize (IH retries s) end.
        cbn in *. lia.
      * destruct retries as [|retries]; [cbn; lia|].
        match goal with |- context [agent_loop _ _ _ ?s] =>
          specialize (IH retries s) end.
        cbn in *. lia.
    + cbn. lia.
Qed.

(** A reply with a [response] tag ends the run at once. *)
Lemma agent_loop_answers tools budget retries st answer rest :
  content (extract_tag_content (llm (chat_history st)) "response")
  = answer :: rest →
  agent_loop tools (S budget) retries st
  = (Done answer,
     {| chat_history :=
          chat_history st ++ [Msg.mk Msg.assistant (llm (chat_history st))];
        requests := S (requests st) |}).
Proof. intros Hanswer. cbn [agent_loop]. by rewrite Hanswer. Qed.

(** With a model that goes on calling tools, the run spends the whole
    budget on requests and ends with the fatal error. *)
Lemma agent_loop_tool_calls tools budget retries st :
  (∀ h, calls_tool (llm h)) →
  (agent_loop tools budget retries st).1 = Fatal IterationBudgetExceeded ∧
  requests (agent_loop tools budget retries st).2 = requests st + budget.
Proof.
  intros Hcalls.
  revert retries st. induction budget as [|budget IH]; intros retries st.
  - cbn. split; [done|lia].
  - cbn [agent_loop].
    destruct (Hcalls (chat_history st)) as [-> [call ->]].
    match goal with |- context [agent_loop _ _ _ ?s] =>
      destruct (IH retries s) as [-> ->] end.
    split; [done|]. cbn. lia.
Qed.

Lemma no_tag_stalls (reply : string) : no_tag reply → stalls reply.
Proof. intros [Hresponse Hcall]. split; [done|]. by rewrite Hcall. Qed.

(** With a model whose replies all stall, the run sends one request more
    than the retries granted and aborts with the reply, unless the budget
    ends first. *)
Lemma agent_loop_stalls tools budget retries st :
  (∀ h, stalls (llm h)) →
  requests (agent_loop tools budget retries st).2
  = requests st + budget `min` S retries ∧
  (budget ≤ retries →
   (agent_loop tools budget retries st).1 = Fatal IterationBudgetExceeded) ∧
  (retries < budget →
   ∃ h, (agent_loop tools budget retries st).1
        = Fatal (MalformedToolCall (llm h))).
Proof.
  intros Hstalls.
  revert retries st. induction budget as [|budget IH]; intros retries st.
  - cbn. split_and!; [lia|done|lia].
  - cbn [agent_loop].
    destruct (Hstalls (chat_history st)) as [-> ->].
    destruct retries as [|retries].
    + cbn. split_and!; [lia|lia|]. intros _. by exists (chat_history st).
    + match goal with |- context [agent_loop _ _ _ ?s] =>
        destruct (IH retries s) as (Hreq & Hout & Hraw) end.
      split_and!.
      * rewrite Hreq. cbn. lia.
      * intros Hle. apply Hout. lia.
      * intros Hlt. apply Hraw. lia.
Qed.

(** What each way of ending tells: an answer is the first [response]
    match of a reply of the model, an abort reports a reply of the model
    that stalled, and the budget is exceeded only when all of it was spent
    on requests. *)
Lemma agent_loop_outcome tools budget retries st :
  match (agent_loop tools budget retries st).1 with
  | Done answer =>
      ∃ h rest,
        content (extract_tag_content (llm h) "response") = answer :: rest
  | Fatal (MalformedToolCall raw) => ∃ h, raw = llm h ∧ stalls (llm h)
  | Fatal IterationBudgetExceeded =>
      requests (agent_loop tools budget retries st).2 = requests st + budget
  end.
Proof.
  revert retries st. induction budget as [|budget IH]; intros retries st.
  - cbn. lia.
  - cbn [agent_loop].
    destruct (content (extract_tag_content _ "response"))
      as [|answer rest] eqn:Hresponse.
    + destruct (head _ ≫= parse_tool_call) as [call|] eqn:Hcall.
      * match goal with |- context [agent_loop _ _ _ ?s] =>
          specialize (IH retries s); destruct (agent_loop _ _ _ s)
            as [[?|[|?]] ?] end; cbn in *; [done| lia |done].
      * destruct retries as [|retries].
        -- cbn. by exists (chat_history st).
        -- match goal with |- context [agent_loop _ _ _ ?s] =>
             specialize (IH retries s); destruct (agent_loop _ _ _ s)
               as [[?|[|?]] ?] end; cbn in *; [done| lia |done].
    + cbn. by exists (chat_history st), rest.
Qed.

End AgentLoopFacts.

(** C7: every run of the agent ends: the loop takes a maximum number of
    iterations from its configuration and sends at most that many requests,
    one per iteration. A run ends in one of three ways: with an answer,
    the first [response] match of a reply of the model; with the terminal
    [MalformedToolCall] on a reply of the model that stalled; or with the
    fatal [IterationBudgetExceeded], having sent exactly as many requests as
    the budget allows. A model that goes on calling tools gets exactly
    this: the fatal error after the last request of the budget, and no
    request more. When every reply stalls (no [tool_call] and no
    [response] tag, or a tool call that does not parse) the run sends one
    request more than the retries granted and ends with the terminal
    [MalformedToolCall], or with [IterationBudgetExceeded] when the budget
    ends first. A first reply with a [response] tag ends the run with that
    answer after one request. The run of the notebook, which gives no
    count, has the default budget of 10. *)
Theorem react_agent_run_terminates {E : External} (cfg : config)
    (tools : gmap string Tool) (user_msg : string) :
  let run := react_agent_run cfg tools user_msg in
  let budget := max_iterations cfg in
  let retries := retries_of (on_stall cfg) in
  requests run.2 ≤ budget ∧
  match run.1 with
  | Done answer =>
      ∃ h rest,
        content (extract_tag_content (llm h) "response") = answer :: rest
  | Fatal (MalformedToolCall raw) => ∃ h, raw = llm h ∧ stalls (llm h)
  | Fatal IterationBudgetExceeded => requests run.2 = budget
  end ∧
  ((∀ h, calls_tool (llm h)) →
   run.1 = Fatal IterationBudgetExceeded ∧ requests run.2 = budget) ∧
  ((∀ h, stalls (llm h)) →
   requests run.2 = budget `min` S retries ∧
   (budget ≤ retries → run.1 = Fatal IterationBudgetExceeded) ∧
   (retries < budget → ∃ h, run.1 = Fatal (MalformedToolCall (llm h)))) ∧
  (∀ reply, no_tag reply → stalls reply) ∧
  (∀ answer rest,
     0 < budget →
     content (extract_tag_content (llm (chat_history (initial user_msg)))
                "response") = answer :: rest →
     run.1 = Done answer ∧ requests run.2 = 1) ∧
  max_iterations default_config = 10 ∧
  requests (agent_run user_msg).2 ≤ 10 ∧
  ((∀ h, calls_tool (llm h)) →
   (agent_run user_msg).1 = Fatal IterationBudgetExceeded ∧
   requests (agent_run user_msg).2 = 10).
Proof.
  cbv zeta. unfold agent_run, react_agent_run. split_and!.
  - apply (agent_loop_requests tools (max_iterations cfg) _ (initial user_msg)).
  - apply (agent_loop_outcome tools (max_iterations cfg) _ (initial user_msg)).
  - intros Hcalls.
    apply (agent_loop_tool_calls tools (max_iterations cfg) _ (initial user_msg)
             Hcalls).
  - intros Hstalls.
    apply (agent_loop_stalls tools (max_iterations cfg) _ (initial user_msg)
             Hstalls).
  - apply no_tag_stalls.
  - intros answer rest Hbudget Hanswer.
    destruct (max_iterations cfg) as [|budget]; [lia|].
    by rewrite (agent_loop_answers _ _ _ _ _ _ Hanswer).
  - done.
  - apply (agent_loop_requests available_tools 10 _ (initial user_msg)).
  - intros Hcalls.
    apply (agent_loop_tool_calls available_tools 10 _ (initial user_msg) Hcalls).
Qed.

Lemma react_agent_run_terminates_witness :
  ((agent_run (E := looping) USER_QUESTION).1 = Fatal IterationBudgetExceeded ∧
   requests (agent_run (E := looping) USER_QUESTION).2 = 10) ∧
  (requests
     (react_agent_run (E := silent)
        {| max_iterations := 10; on_stall := RetryOnce |}
        (available_tools (E := silent)) USER_QUESTION).2 = 2 ∧
   ∃ h,
     (react_agent_run (E := silent)
        {| max_iterations := 10; on_stall := RetryOnce |}
        (available_tools (E := silent)) USER_QUESTION).1
     = Fatal (MalformedToolCall (llm (External := silent) h))).
Proof.
  split.
  - pose proof (react_agent_run_terminates (E := looping) default_config
                  (available_tools (E := looping)) USER_QUESTION) as H.
    cbv zeta in H. destruct H as (_ & _ & _ & _ & _ & _ & _ & _ & H).
    apply H. intros h. split; [reflexivity|]. eexists. by vm_compute.
  - pose proof (react_agent_run_terminates (E := silent)
                  {| max_iterations := 10; on_stall := RetryOnce |}
                  (available_tools (E := silent)) USER_QUESTION) as H.
    cbv zeta in H. destruct H as (_ & _ & _ & H & _).
    destruct H as (Hreq & _ & Hraw).
    + intros h. cbn [llm silent scripted]. rewrite lookup_nil.
      split; reflexivity.
    + split; [exact Hreq|]. apply Hraw. cbn. lia.
Defined.

(** Scenario C on the agent, in full: one corrective retry, then the abort
    that reports the raw reply; with a budget of one iteration, the budget
    is exceeded instead. *)
Example silent_model_aborts :
  react_agent_run (E := silent) {| max_iterations := 10; on_stall := RetryOnce |}
    (available_tools (E := silent)) USER_QUESTION
  = (Fatal (MalformedToolCall ""),
     {| chat_history :=
          chat_history (initial (E := silent) USER_QUESTION) ++
          [Msg.mk Msg.assistant ""; corrective_note; Msg.mk Msg.assistant ""];
        requests := 2 |}) ∧
  (react_agent_run (E := silent) {| max_iterations := 1; on_stall := RetryOnce |}
     (available_tools (E := silent)) USER_QUESTION).1
  = Fatal IterationBudgetExceeded.
Proof. by vm_compute. Qed.

(** Scenarios A and D on the agent: the three tool calls and the final
    response; an unknown tool is observed and the loop asks again. *)
Example agent_scenarios :
  (agent_run (E := scenario_A) USER_QUESTION).1
  = Done "The result is 10.450452222917992" ∧
  requests (agent_run (E := scenario_A) USER_QUESTION).2 = 4 ∧
  react_agent_run (E := scenario_D) {| max_iterations := 2; on_stall := Abort |}
    (available_tools (E := scenario_D))
    "What's the current temperature in Madrid?"
  = (Fatal (MalformedToolCall ""),
     {| chat_history :=
          chat_history
            (initial (E := scenario_D) "What's the current temperature in Madrid?") ++
          [Msg.mk Msg.assistant
             (tool_call_reply "I need to get the current weather in Madrid"
                weather_call);
           Msg.mk Msg.user
             "<observation>Unknown tool: get_current_weather</observation>";
           Msg.mk Msg.assistant ""];
        requests := 2 |}).
Proof. by vm_compute. Qed.

(** * More on the code *)

(** ** The extractor, match by match: lemmas *)

Section ExtractorMore.
Implicit Types tag text pre inner rest : string.

Lemma leftmost_not_inside (n inner : string) :
  0 < String.length n → leftmost n inner → ¬ occurs n inner.
Proof.
  intros Hn Hl (u & v & Heq).
  assert (inner +:+ n = u +:+ n +:+ (v +:+ n)) as H.
  { rewrite Heq at 1. by rewrite !string_app_assoc. }
  apply Hl in H. apply (f_equal String.length) in Heq.
  rewrite !string_length_app in Heq. lia.
Qed.

(** A needle that starts with [<] and holds no other [<] cannot overlap
    itself. *)
Lemma angle_leftmost (body pre : string) :
  has_char "<" body = false → ¬ occurs (String "<" body) pre →
  leftmost (String "<" body) pre.
Proof.
  intros Hbody Hno u v Heq.
  destruct (decide (String.length pre ≤ String.length u)) as [|Hlt]; [done|].
  exfalso. symmetry in Heq.
  destruct (string_app_eq_app_le _ _ _ _ Heq) as (w & -> & Hw); [lia|].
  destruct (string_app_eq_app _ _ _ _ Hw) as [k [[-> _]|[Hk1 Hk2]]].
  - destruct Hno. by exists u, k.
  - destruct k as [|c k].
    + rewrite string_app_nil_r in Hk1. subst w. destruct Hno. exists u, "".
      by rewrite string_app_nil_r.
    + destruct w as [|y w].
      { rewrite string_length_app in Hlt. cbn in Hlt. lia. }
      norm. injection Hk2 as <- _. injection Hk1 as _ Hk1.
      apply (f_equal (has_char "<")) in Hk1.
      rewrite has_char_mid in Hk1. congruence.
Qed.

Lemma open_tag_leftmost tag pre :
  has_char "<" tag = false → ¬ occurs (open_tag tag) pre →
  leftmost (open_tag tag) pre.
Proof.
  intros Htag. apply angle_leftmost. rewrite has_char_app, Htag. reflexivity.
Qed.

Lemma no_angle_no_close tag (s : string) :
  has_char "<" s = false → ¬ occurs (close_tag tag) s.
Proof.
  intros Hs (u & v & ->). unfold close_tag in Hs. norm.
  by rewrite has_char_mid in Hs.
Qed.

Lemma close_tag_length tag :
  String.length (close_tag tag) = S (S (S (String.length tag))).
Proof. unfold close_tag. rewrite !string_length_app. cbn. lia. Qed.

Lemma extract_cons tag pre inner rest :
  leftmost (open_tag tag) pre → leftmost (close_tag tag) inner →
  content (extract_tag_content
             (pre +:+ open_tag tag +:+ inner +:+ close_tag tag +:+ rest) tag)
  = inner :: content (extract_tag_content rest tag).
Proof.
  intros Hlo Hlc. eapply occurrences_unique; [apply extract_occurrences|].
  constructor; [done..|]. apply extract_occurrences.
Qed.

Lemma extract_nil tag : content (extract_tag_content "" tag) = [].
Proof. reflexivity. Qed.

Lemma extract_wrapped tag inner :
  has_char "<" tag = false → ¬ occurs (close_tag tag) inner →
  content (extract_tag_content (open_tag tag +:+ inner +:+ close_tag tag) tag)
  = [inner].
Proof.
  intros Htag Hno.
  pose proof (extract_cons tag "" inner "" (leftmost_nil _)
                (close_tag_leftmost _ _ Htag Hno)) as H.
  by rewrite string_app_nil_l, string_app_nil_r, extract_nil in H.
Qed.

Lemma occurs_later (n pre text : string) : occurs n text → occurs n (pre +:+ text).
Proof.
  intros (u & v & ->). exists (pre +:+ u), v. by rewrite string_app_assoc.
Qed.

Lemma occurrences_bound tag text ms :
  occurrences tag text ms →
  length ms * (2 * String.length tag + 5) ≤ String.length text.
Proof.
  induction 1 as [text Hno|pre inner rest ms Hlo Hlc Hrest IH]; [cbn; lia|].
  rewrite !string_length_app, open_tag_length, close_tag_length. cbn. lia.
Qed.

Lemma occurrences_inside tag text ms :
  occurrences tag text ms →
  Forall (λ m, occurs (open_tag tag +:+ m +:+ close_tag tag) text ∧
               ¬ occurs (close_tag tag) m) ms.
Proof.
  induction 1 as [text Hno|pre inner rest ms Hlo Hlc Hrest IH]; [constructor|].
  constructor.
  - split.
    + exists pre, rest. by rewrite !string_app_assoc.
    + apply leftmost_not_inside; [|done]. rewrite close_tag_length. lia.
  - eapply Forall_impl; [exact IH|]. intros m [Hocc Hno]. split; [|done].
    rewrite <- !string_app_assoc. rewrite !string_app_assoc.
    rewrite <- (string_app_assoc pre), <- (string_app_assoc (pre +:+ _)),
      <- (string_app_assoc ((pre +:+ _) +:+ _)).
    by apply occurs_later.
Qed.

End ExtractorMore.


(** ** The tools *)

(** X1: [compute_log] returns the message exactly on [x <= 0] and a float
    exactly on [x >= 1], and that float is never negative. *)
Theorem compute_log_range (x : Z) :
  ((x ≤ 0)%Z ∧
   compute_log x
   = VStr "Logarithm is undefined for values less than or equal to 0.") ∨
  ((1 ≤ x)%Z ∧ ∃ r : R, compute_log x = VFloat r ∧ (0 <= r)%R).
Proof.
  destruct (decide (x ≤ 0)%Z) as [Hx|Hx].
  - left. split; [done|]. by apply compute_log_undefined.
  - right. split; [lia|]. exists (ln (IZR x)).
    split; [apply compute_log_defined; lia|].
    assert (1 <= IZR x)%R as H1 by (apply IZR_le; lia).
    destruct H1 as [Hlt|<-].
    + rewrite <- ln_1. apply Rlt_le, ln_increasing; lra.
    + rewrite ln_1. lra.
Qed.

(** ** The cells, whatever the model answers *)

Section CellsMore.
Context {E : External}.
Implicit Types (output : string) (st : state) (d : gmap string json).

(** What a round can do: return the value of the tool call, the reply
    and the observation recorded, or stop on a fault, the reply recorded. *)
Lemma round_cases (expected : option value) st :
  let reply := llm (chat_history st) in
  (∃ v, call_tool reply = Ok v ∧ check v expected = Ok () ∧
        format_value v = Ok (py_str v) ∧
        round expected st
        = (Ok v,
           {| chat_history :=
                chat_history st ++ [Msg.mk Msg.assistant reply; observation v];
              requests := S (requests st) |})) ∨
  (∃ e, round expected st
        = (Raise e,
           {| chat_history := chat_history st ++ [Msg.mk Msg.assistant reply];
              requests := S (requests st) |})).
Proof.
  cbv zeta. rewrite round_unfold.
  match goal with |- context [act ?o _ ?s] =>
    destruct (act_cases o expected s)
      as [(v & Hcall & Hcheck & Hformat & ->)|(e & ->)]
  end.
  - left. exists v. split_and!; [done..|]. cbn. by rewrite <- app_assoc.
  - right. by exists e.
Qed.

Lemma round_checked (expected : option value) st st' v :
  round expected st = (Ok v, st') → check v expected = Ok ().
Proof.
  destruct (round_cases expected st) as [(v' & _ & Hcheck & _ & ->)|(e & ->)];
    [|done].
  by intros [= <- _].
Qed.

Lemma check_Some v w : check v (Some w) = Ok () → py_eq v w = true.
Proof. cbn. by destruct (py_eq v w). Qed.

End CellsMore.

(** X3: a round always sends exactly one request and always records the
    reply of the model; it records an observation after it exactly when it
    returns a value, and nothing more when it stops on a fault. *)
Theorem round_outcome {E : External} (expected : option value) (st : state) :
  requests (round expected st).2 = S (requests st) ∧
  chat_history (round expected st).2
  = chat_history st ++
    Msg.mk Msg.assistant (llm (chat_history st)) ::
    match (round expected st).1 with
    | Ok v => [observation v]
    | Raise _ => []
    end.
Proof.
  by destruct (round_cases expected st) as [(v & _ & _ & _ & ->)|(e & ->)].
Qed.

(** X4: whatever the model answers, steps 1 to 7 of the walkthrough send
    at least one request and at most four. *)
Theorem walkthrough_request_bounds {E : External} (st : state) :
  requests st + 1 ≤ requests (walkthrough st).2 ≤ requests st + 4.
Proof.
  cbv [walkthrough mbind cell_bind].
  pose proof (round_cases (Some (VInt (1234 + 5678))) st) as Hr1.
  cbv zeta in Hr1. destruct Hr1 as [(v1 & _ & _ & _ & Hr1)|(e & Hr1)];
    rewrite Hr1; [|cbn; lia].
  match goal with |- context [round _ ?s] => set (st1 := s) end.
  pose proof (round_cases (Some (VInt ((1234 + 5678) * 5))) st1) as Hr2.
  cbv zeta in Hr2. destruct Hr2 as [(v2 & _ & _ & _ & Hr2)|(e & Hr2)];
    rewrite Hr2; [|cbn; lia].
  match goal with |- context [round _ ?s] => set (st2 := s) end.
  pose proof (round_cases (Some (VFloat (math_log ((1234 + 5678) * 5)))) st2)
    as Hr3.
  cbv zeta in Hr3. destruct Hr3 as [(v3 & _ & _ & _ & Hr3)|(e & Hr3)];
    rewrite Hr3; cbn; lia.
Qed.

(** X6: when steps 1 to 7 of the walkthrough run through, the three tool
    results equal, as Python compares them, the values the notebook
    asserts, these steps sent four requests and appended the six messages
    of the three rounds, and the last output is the answer of the model
    to that conversation. *)
Theorem walkthrough_completes {E : External} (st st' : state)
    (r1 r2 r3 : value) (output : string) :
  walkthrough st = (Ok (r1, r2, r3, output), st') →
  py_eq r1 (VInt 6912) = true ∧
  py_eq r2 (VInt 34560) = true ∧
  py_eq r3 (VFloat (ln 34560)) = true ∧
  requests st' = requests st + 4 ∧
  (∃ a1 a2 a3,
     chat_history st'
     = chat_history st ++
       [Msg.mk Msg.assistant a1; observation r1;
        Msg.mk Msg.assistant a2; observation r2;
        Msg.mk Msg.assistant a3; observation r3]) ∧
  output = llm (chat_history st').
Proof.
  intros H. cbv [walkthrough mbind cell_bind] in H.
  pose proof (round_cases (Some (VInt (1234 + 5678))) st) as Hr1.
  cbv zeta in Hr1. destruct Hr1 as [(v1 & _ & Hk1 & _ & Hr1)|(e & Hr1)];
    rewrite Hr1 in H; [|done].
  match type of H with context [round _ ?s] => set (st1 := s) in * end.
  pose proof (round_cases (Some (VInt ((1234 + 5678) * 5))) st1) as Hr2.
  cbv zeta in Hr2. destruct Hr2 as [(v2 & _ & Hk2 & _ & Hr2)|(e & Hr2)];
    rewrite Hr2 in H; [|done].
  match type of H with context [round _ ?s] => set (st2 := s) in * end.
  pose proof (round_cases (Some (VFloat (math_log ((1234 + 5678) * 5)))) st2)
    as Hr3.
  cbv zeta in Hr3. destruct Hr3 as [(v3 & _ & Hk3 & _ & Hr3)|(e & Hr3)];
    rewrite Hr3 in H; [|done].
  cbv [ask mret cell_ret] in H. injection H as <- <- <- <- <-.
  apply check_Some in Hk1, Hk2, Hk3. split_and!.
  - done.
  - done.
  - done.
  - cbn. lia.
  - eexists _, _, _. subst st2 st1. cbn. by rewrite <- !app_assoc.
  - done.
Qed.

Lemma walkthrough_completes_witness :
  requests
    (walkthrough (E := scenario_A) (initial (E := scenario_A) USER_QUESTION)).2
  = requests (initial (E := scenario_A) USER_QUESTION) + 4.
Proof.
  eapply (walkthrough_completes (E := scenario_A)).
  rewrite scenario_A_walkthrough. reflexivity.
Defined.

(** X7: whatever the model answers, the conversation the walkthrough
    leaves behind starts with the system prompt and then alternates user
    and assistant messages. *)
Theorem walkthrough_well_formed {E : External} (question : string) :
  well_formed (chat_history (walkthrough (initial question)).2) = true.
Proof.
  cbv [walkthrough mbind cell_bind].
  pose proof (round_cases (Some (VInt (1234 + 5678))) (initial question))
    as Hr1.
  cbv zeta in Hr1. destruct Hr1 as [(v1 & _ & _ & _ & Hr1)|(e & Hr1)];
    rewrite Hr1; [|done].
  match goal with |- context [round _ ?s] => set (st1 := s) end.
  pose proof (round_cases (Some (VInt ((1234 + 5678) * 5))) st1) as Hr2.
  cbv zeta in Hr2. destruct Hr2 as [(v2 & _ & _ & _ & Hr2)|(e & Hr2)];
    rewrite Hr2; [|done].
  match goal with |- context [round _ ?s] => set (st2 := s) end.
  pose proof (round_cases (Some (VFloat (math_log ((1234 + 5678) * 5)))) st2)
    as Hr3.
  cbv zeta in Hr3. destruct Hr3 as [(v3 & _ & _ & _ & Hr3)|(e & Hr3)];
    rewrite Hr3; done.
Qed.

(** X8: the dispatch reads the keys [name] and [arguments] of a tool call
    and nothing else: two objects that agree on these two keys, with or
    without an [id] or other keys, run the same tool on the same arguments
    and leave the same observation. *)
Theorem dispatch_reads_name_and_arguments {E : External}
    (d1 d2 : gmap string json) (output1 output2 s1 s2 : string)
    (expected : option value) (st : state) :
  d1 !! "name" = d2 !! "name" →
  d1 !! "arguments" = d2 !! "arguments" →
  item0 (content (extract_tag_content output1 "tool_call")) = Ok s1 →
  json_loads s1 = Some (JObj d1) →
  item0 (content (extract_tag_content output2 "tool_call")) = Ok s2 →
  json_loads s2 = Some (JObj d2) →
  dispatch (JObj d1) = dispatch (JObj d2) ∧
  act output1 expected st = act output2 expected st.
Proof.
  intros Hname Hargs Hfirst1 Hloads1 Hfirst2 Hloads2.
  assert (dispatch (JObj d1) = dispatch (JObj d2)) as Hd.
  { unfold dispatch, subscript. by rewrite Hname, Hargs. }
  split; [done|]. unfold act.
  rewrite (call_tool_decoded _ _ _ Hfirst1 Hloads1).
  rewrite (call_tool_decoded _ _ _ Hfirst2 Hloads2). by rewrite Hd.
Qed.

Lemma dispatch_reads_name_and_arguments_witness :
  act (E := no_id) (tool_call_reply "I need the sum" sum_call)
    (Some (VInt (1234 + 5678))) {| chat_history := []; requests := 1 |}
  = act (E := no_id) (tool_call_reply "I need the sum" sum_call_no_id)
    (Some (VInt (1234 + 5678))) {| chat_history := []; requests := 1 |}.
Proof.
  eapply (dispatch_reads_name_and_arguments (E := no_id)
            (<["name" := JStr "sum_two_elements"]>
               (<["arguments" :=
                    JObj (<["a" := JInt 1234]> {["b" := JInt 5678]})]>
                  (<["id" := JInt 0]> ∅)))
            (<["name" := JStr "sum_two_elements"]>
               {["arguments" :=
                   JObj (<["a" := JInt 1234]> {["b" := JInt 5678]})]})
            _ _ sum_call sum_call_no_id);
    by vm_compute.
Defined.

(** X9: of a reply with several tool calls only the first is run: what
    follows the first [tool_call] pair has no effect on the call. *)
Theorem only_first_tool_call_runs {E : External} (pre call rest : string) :
  ¬ occurs (open_tag "tool_call") pre →
  ¬ occurs (close_tag "tool_call") call →
  call_tool (pre +:+ open_tag "tool_call" +:+ call +:+
             close_tag "tool_call" +:+ rest)
  = loads call ≫= dispatch.
Proof.
  intros Hpre Hcall. unfold call_tool.
  rewrite (extract_cons "tool_call" pre call rest).
  - reflexivity.
  - by apply open_tag_leftmost.
  - by apply close_tag_leftmost.
Qed.

Lemma only_first_tool_call_runs_witness :
  call_tool (E := scenario_A)
    ("First the sum. " +:+ open_tag "tool_call" +:+ sum_call +:+
     close_tag "tool_call" +:+
     (open_tag "tool_call" +:+ multiply_call +:+ close_tag "tool_call"))
  = Ok (VInt 6912).
Proof.
  rewrite (only_first_tool_call_runs (E := scenario_A)).
  - reflexivity.
  - apply split_at_None. reflexivity.
  - apply split_at_None. reflexivity.
Defined.



(** ** What the cells write can be read back *)

Section Wrapping.

(** The decimal text of an integer holds digits and a sign only. *)
Lemma pretty_N_go_no_angle (x : N) (s : string) :
  has_char "<" s = false → has_char "<" (pretty_N_go x s) = false.
Proof.
  revert s. induction (N.lt_wf_0 x) as [x _ IH]. intros s Hs.
  destruct (decide (0 < x)%N) as [Hx|Hx].
  - rewrite pretty_N_go_step by done. apply IH.
    + by apply N.div_lt.
    + cbn. rewrite Hs. unfold pretty_N_char. by repeat case_match.
  - replace x with 0%N by lia. by rewrite pretty_N_go_0.
Qed.

Lemma pretty_Z_no_angle (n : Z) : has_char "<" (pretty n) = false.
Proof.
  assert (∀ p : positive, has_char "<" (pretty (N.pos p)) = false) as Hpos.
  { intros p. unfold pretty, pretty_N. rewrite decide_False by done.
    by apply pretty_N_go_no_angle. }
  destruct n as [|p|p]; [done|apply Hpos|].
  unfold pretty, pretty_Z. rewrite has_char_app. cbn. apply Hpos.
Qed.

End Wrapping.

(** X11: the observation a cell appends can be read back with the
    extractor: when the cell returns [v], extracting [observation] from
    the last message of the conversation gives the text of [v], whenever
    that text holds no [</observation>]; the text of an integer never
    does, so an integer the cell could format reads back as its decimal
    text. *)
Theorem observation_round_trip {E : External} (output : string)
    (expected : option value) (st st' : state) (v : value) :
  act output expected st = (Ok v, st') →
  let read :=
    (λ m, content (extract_tag_content (Msg.content m) "observation"))
      <$> last (chat_history st') in
  (¬ occurs (close_tag "observation") (py_str v) → read = Some [py_str v]) ∧
  (∀ n, v = VInt n →
        digits n ≤ int_max_str_digits ∧ read = Some [pretty n]).
Proof.
  intros Hact.
  destruct (act_cases output expected st)
    as [(v' & _ & _ & Hformat & Hact')|(e & Hact')];
    rewrite Hact' in Hact; [|done].
  injection Hact as <- <-. cbv zeta. cbn [chat_history]. rewrite last_snoc.
  change (?f <$> Some ?m) with (Some (f m)). cbv beta.
  assert (¬ occurs (close_tag "observation") (py_str v') →
          content (extract_tag_content
                     (Msg.content (observation v')) "observation")
          = [py_str v']) as Hwrap.
  { intros Hv. by apply (extract_wrapped "observation" (py_str v')). }
  split; [intros Hv; by rewrite Hwrap|]. intros n ->. split.
  - unfold format_value in Hformat. case_decide; [done|lia].
  - rewrite Hwrap; [done|]. apply no_angle_no_close, pretty_Z_no_angle.
Qed.

Lemma observation_round_trip_witness :
  (λ m, content (extract_tag_content (Msg.content m) "observation"))
    <$> last [Msg.mk Msg.user "<observation>6912</observation>"]
  = Some ["6912"].
Proof.
  pose proof (observation_round_trip (E := scenario_A)
                (tool_call_reply "I need to calculate the sum of 1234 and 5678"
                   sum_call)
                (Some (VInt (1234 + 5678)))
                {| chat_history := []; requests := 1 |}
                {| chat_history :=
                     [Msg.mk Msg.user "<observation>6912</observation>"];
                   requests := 1 |}
                (VInt 6912) eq_refl) as [_ Hint].
  apply (Hint 6912%Z eq_refl).
Defined.

(** X12: the question the first cell wraps can be read back: extracting
    [question] from the user message of the initial conversation gives the
    question itself, whenever it holds no [</question>]. *)
Theorem question_round_trip {E : External} (question : string) :
  ¬ occurs (close_tag "question") question →
  (λ m, content (extract_tag_content (Msg.content m) "question"))
    <$> chat_history (initial question) !! 1
  = Some [question].
Proof.
  intros Hq. cbn. f_equal.
  by apply (extract_wrapped "question" question).
Qed.

Lemma question_round_trip_witness :
  (λ m, content (extract_tag_content (Msg.content m) "question"))
    <$> chat_history (initial (E := scenario_A) USER_QUESTION) !! 1
  = Some [USER_QUESTION].
Proof.
  apply (question_round_trip (E := scenario_A)).
  apply split_at_None. reflexivity.
Defined.

(** ** The system prompt *)

Section Prompt.

Example template_length : String.length REACT_SYSTEM_PROMPT_template = 1367.
Proof. reflexivity. Qed.

Lemma prepend_prepend (a b : string) (f : formatted) :
  prepend a (prepend b f) = prepend (a +:+ b) f.
Proof. destruct f; cbn; by rewrite ?string_app_assoc. Qed.

(** Text without [%] is copied as it stands. *)
Lemma percent_format_plain (used : bool) (a rest arg : string) :
  has_char "%" a = false →
  percent_format_from used (a +:+ rest) arg
  = prepend a (percent_format_from used rest arg).
Proof.
  induction a as [|c a IH]; intros Ha.
  - norm. destruct (percent_format_from used rest arg); reflexivity.
  - cbn in Ha. case_decide as Hc; [done|]. norm. cbn.
    rewrite decide_False by congruence. rewrite (IH Ha).
    by rewrite prepend_prepend.
Qed.

Lemma percent_format_end (used : bool) (a arg : string) :
  has_char "%" a = false →
  percent_format_from used a arg
  = if used then Formatted a else NotAllArgumentsConverted.
Proof.
  intros Ha. rewrite <- (string_app_nil_r a) at 1.
  rewrite (percent_format_plain _ _ _ _ Ha). cbn.
  destruct used; cbn; by rewrite ?string_app_nil_r.
Qed.

Lemma percent_format_one (before after arg : string) :
  has_char "%" before = false → has_char "%" after = false →
  percent_format (before +:+ "%s" +:+ after) arg
  = Formatted (before +:+ arg +:+ after).
Proof.
  intros Hb Ha. unfold percent_format.
  rewrite (percent_format_plain _ _ _ _ Hb). norm. cbn.
  by rewrite (percent_format_end _ _ _ Ha).
Qed.

End Prompt.

(** X13: the cell [REACT_SYSTEM_PROMPT = REACT_SYSTEM_PROMPT %
    tools_signature] succeeds whatever the signatures are: the template
    holds one conversion [%s] and no other [%], and the result is the
    template with the signatures in its place. Run a second time, on its
    own result, the cell raises [TypeError] (not all arguments converted),
    unless a signature holds a [%]. *)
Theorem system_prompt_format :
  ∃ before after,
    REACT_SYSTEM_PROMPT_template = before +:+ "%s" +:+ after ∧
    has_char "%"%char before = false ∧
    has_char "%"%char after = false ∧
    ∀ sum_sig multiply_sig log_sig,
      let signatures := tools_signature sum_sig multiply_sig log_sig in
      percent_format REACT_SYSTEM_PROMPT_template signatures
      = Formatted (before +:+ signatures +:+ after) ∧
      (has_char "%"%char signatures = false →
       percent_format (before +:+ signatures +:+ after) signatures
       = NotAllArgumentsConverted).
Proof.
  destruct (split_at "%s" REACT_SYSTEM_PROMPT_template) as [[before after]|]
    eqn:Hsplit; [|by vm_compute in Hsplit].
  exists before, after.
  pose proof (split_at_Some _ _ _ _ Hsplit) as [Heq _].
  vm_compute in Hsplit. injection Hsplit as <- <-.
  split_and!; [exact Heq|by vm_compute..|].
  intros sum_sig multiply_sig log_sig signatures. split.
  - rewrite Heq. by apply percent_format_one.
  - intros Hsig. unfold percent_format. apply percent_format_end.
    by rewrite !has_char_app, Hsig.
Qed.

(** ** The extractor, match by match *)

(** X14: in a text that opens with (anything without the opening tag, then)
    a first pair [<tag>inner</tag>], the first match is [inner] and the
    other matches are those of the text after the pair. *)
Theorem extract_first_then_rest (tag pre inner rest : string) :
  has_char "<"%char tag = false →
  ¬ occurs (open_tag tag) pre →
  ¬ occurs (close_tag tag) inner →
  content (extract_tag_content
             (pre +:+ open_tag tag +:+ inner +:+ close_tag tag +:+ rest) tag)
  = inner :: content (extract_tag_content rest tag).
Proof.
  intros Htag Hpre Hinner. apply extract_cons.
  - by apply open_tag_leftmost.
  - by apply close_tag_leftmost.
Qed.

Lemma extract_first_then_rest_witness :
  content (extract_tag_content
             ("Both: " +:+ open_tag "tool_call" +:+ "first" +:+
              close_tag "tool_call" +:+ " and <tool_call>second</tool_call>")
             "tool_call")
  = "first" :: content (extract_tag_content
                          " and <tool_call>second</tool_call>" "tool_call").
Proof.
  apply extract_first_then_rest.
  - reflexivity.
  - apply split_at_None. reflexivity.
  - apply split_at_None. reflexivity.
Defined.

(** X15: the extractor finds something exactly when the pair
    [<tag>...</tag>] appears in the text. *)
Theorem extract_found_iff (text tag : string) :
  content (extract_tag_content text tag) ≠ [] ↔ pair_occurs tag text.
Proof.
  pose proof (extract_occurrences text tag) as Hocc.
  destruct (content (extract_tag_content text tag)) as [|m ms].
  - split; [done|]. intros Hpair _. by inversion Hocc.
  - split; [|done]. intros _. inversion Hocc; subst. by eexists _, _, _.
Qed.

(** X16: every match takes an opening and a closing tag of its own out of
    the text: a text of length [n] has at most [n / (2 * |tag| + 5)]
    matches. *)
Theorem extract_count_bound (text tag : string) :
  length (content (extract_tag_content text tag)) * (2 * String.length tag + 5)
  ≤ String.length text.
Proof. apply occurrences_bound, extract_occurrences. Qed.

(** X17: every match stands in the text between an opening and a closing
    tag, and holds no closing tag itself. *)
Theorem extract_matches_inside (text tag : string) :
  Forall (λ m, occurs (open_tag tag +:+ m +:+ close_tag tag) text ∧
               ¬ occurs (close_tag tag) m)
         (content (extract_tag_content text tag)).
Proof. apply occurrences_inside, extract_occurrences. Qed.
